(** * TOTP / raw-secret verification of the MFA module

    Shallow embedding of [backend/src/utils/mfa/verifyTotpOrSecretKey.ts]
    and the properties of its specification.

    Conventions.
    - A JavaScript [number] that holds an integer is a [Z]; the 32-bit
      coercions that the bitwise operators perform are written out
      ([ToInt32]).
    - A JavaScript string is the list of its UTF-16 code units.
    - A [Buffer] is the list of its bytes (each a [Z]; a store wraps
      modulo 256, a read out of range gives [undefined]).
    - A call that may throw, and that may invoke [crypto.timingSafeEqual],
      lives in the monad [M]: the trace of [timingSafeEqual] invocations
      together with either a value or a thrown exception.  A rejected
      promise of an [async] function is a thrown exception. *)

From Stdlib Require Import ZArith List Lia String Ascii Bool.
From stdpp Require Import base numbers list.
Import ListNotations.
Local Open Scope Z_scope.

(** ** JavaScript values and primitives *)

Module JS.

Abbreviation js_string := (list Z) (only parsing).
Abbreviation Buffer := (list Z) (only parsing).

(** A string literal of the source, as code units. *)
Definition str (s : string) : js_string :=
  map (fun a => Z.of_nat (nat_of_ascii a)) (list_ascii_of_string s).

Definition len {A} (l : list A) : Z := Z.of_nat (length l).

(** ECMAScript [ToInt32] on an integral number. *)
Definition ToInt32 (x : Z) : Z :=
  let m := x mod 2 ^ 32 in
  if m <? 2 ^ 31 then m else m - 2 ^ 32.

(** The conversion of a typed-array store. *)
Definition ToUint8 (x : Z) : Z := x mod 256.

(** [a & b], [a | b], [a << n], [a >> n]. *)
Definition band (a b : Z) : Z := Z.land (ToInt32 a) (ToInt32 b).
Definition bor (a b : Z) : Z := Z.lor (ToInt32 a) (ToInt32 b).
Definition shl (a n : Z) : Z := ToInt32 (Z.shiftl (ToInt32 a) (n mod 32)).
Definition sar (a n : Z) : Z := Z.shiftr (ToInt32 a) (n mod 32).

(** [buf[i]]: [undefined] (here [None]) outside [0 .. length-1]. *)
Definition index (buf : Buffer) (i : Z) : option Z :=
  if i <? 0 then None else buf !! Z.to_nat i.

(** [buf[i] = v]: the value wraps to a byte, a store out of range is
    ignored. *)
Definition store (buf : Buffer) (i : Z) (v : Z) : Buffer :=
  if i <? 0 then buf else <[Z.to_nat i := ToUint8 v]> buf.

(** The operand of a bitwise operator read from a buffer:
    [ToInt32(undefined)] is [0]. *)
Definition operand (v : option Z) : Z :=
  match v with Some x => x | None => 0 end.

Definition Buffer_alloc (n : Z) : Buffer := repeat 0 (Z.to_nat n).

(** [a % b] on integral numbers, [b] not zero: the sign follows [a]. *)
Definition rem (a b : Z) : Z := Z.rem a b.

(** [a ** b] on integral numbers, [0 <= b]. *)
Definition pow (a b : Z) : Z := a ^ b.

(** [Math.floor(a / b)] on integral numbers, [b] not zero. *)
Definition floor_div (a b : Z) : Z := a / b.

Definition digit (d : Z) : Z := 48 + d.

Definition is_digit (c : Z) : bool := (48 <=? c) && (c <=? 57).

(** Decimal digits of a natural number, most significant first.  The
    fuel bounds the number of digits. *)
Fixpoint digits_acc (fuel : nat) (n : Z) (acc : js_string) : js_string :=
  match fuel with
  | O => acc
  | S fuel' =>
      let acc' := digit (n mod 10) :: acc in
      if n / 10 =? 0 then acc' else digits_acc fuel' (n / 10) acc'
  end.

(** [`${n}`] for an integral number below [10^21] in absolute value. *)
Definition Number_toString (n : Z) : js_string :=
  if n <? 0
  then 45 :: digits_acc (S (Z.to_nat (Z.log2 (- n)))) (- n) []
  else digits_acc (S (Z.to_nat (Z.log2 n))) n [].

(** The value of a string of decimal digits. *)
Definition decimal_value (s : js_string) : Z :=
  fold_left (fun acc c => 10 * acc + (c - 48)) s 0.

(** [s.padStart(targetLength, padString)]. *)
Definition padStart (s : js_string) (targetLength : Z) (padString : js_string)
  : js_string :=
  let fillLen := Z.to_nat (targetLength - len s) in
  match padString with
  | [] => s
  | _ => take fillLen (concat (repeat padString fillLen)) ++ s
  end.

(** [Buffer.from(s)]: the UTF-8 encoding of the code units; a surrogate
    without its partner becomes U+FFFD. *)
Definition is_high_surrogate (c : Z) : bool := (0xD800 <=? c) && (c <=? 0xDBFF).
Definition is_low_surrogate (c : Z) : bool := (0xDC00 <=? c) && (c <=? 0xDFFF).

Definition utf8_replacement : Buffer := [0xEF; 0xBF; 0xBD].

Definition utf8_2 (c : Z) : Buffer :=
  [Z.lor 0xC0 (Z.shiftr c 6); Z.lor 0x80 (Z.land c 0x3F)].

Definition utf8_3 (c : Z) : Buffer :=
  [Z.lor 0xE0 (Z.shiftr c 12);
   Z.lor 0x80 (Z.land (Z.shiftr c 6) 0x3F);
   Z.lor 0x80 (Z.land c 0x3F)].

Definition utf8_4 (hi lo : Z) : Buffer :=
  let cp := 0x10000 + Z.shiftl (hi - 0xD800) 10 + (lo - 0xDC00) in
  [Z.lor 0xF0 (Z.shiftr cp 18);
   Z.lor 0x80 (Z.land (Z.shiftr cp 12) 0x3F);
   Z.lor 0x80 (Z.land (Z.shiftr cp 6) 0x3F);
   Z.lor 0x80 (Z.land cp 0x3F)].

Fixpoint Buffer_from (s : js_string) : Buffer :=
  match s with
  | [] => []
  | c :: rest =>
      if c <? 0x80 then c :: Buffer_from rest
      else if c <? 0x800 then utf8_2 c ++ Buffer_from rest
      else if is_high_surrogate c then
        match rest with
        | d :: rest' =>
            if is_low_surrogate d then utf8_4 c d ++ Buffer_from rest'
            else utf8_replacement ++ Buffer_from rest
        | [] => utf8_replacement
        end
      else if is_low_surrogate c then utf8_replacement ++ Buffer_from rest
      else utf8_3 c ++ Buffer_from rest
  end.

End JS.
Import JS.

(** ** Exceptions and the trace of constant-time comparisons *)

Inductive exn : Type :=
  | ERR_CRYPTO_TIMING_SAFE_EQUAL_LENGTH
  | DecodeError (msg : string).

Inductive outcome (A : Type) : Type :=
  | Return (a : A)
  | Throw (e : exn).
Arguments Return {A} a.
Arguments Throw {A} e.

(** One invocation of [crypto.timingSafeEqual], with its two arguments. *)
Inductive event : Type :=
  | TimingSafeEqual (a b : Buffer).

Record M (A : Type) : Type := mkM { trace : list event; result : outcome A }.
Arguments mkM {A} trace result.
Arguments trace {A} m.
Arguments result {A} m.

Definition ret {A} (a : A) : M A := mkM [] (Return a).
Definition throw {A} (e : exn) : M A := mkM [] (Throw e).

Definition bind {A B} (m : M A) (k : A -> M B) : M B :=
  match result m with
  | Return a => mkM (trace m ++ trace (k a)) (result (k a))
  | Throw e => mkM (trace m) (Throw e)
  end.

(** [try { body } catch (err) { handler }]. *)
Definition try_catch {A} (body : M A) (handler : exn -> M A) : M A :=
  match result body with
  | Return a => body
  | Throw e => mkM (trace body ++ trace (handler e)) (result (handler e))
  end.

(** A callee that only may throw. *)
Definition lift {A} (o : outcome A) : M A := mkM [] o.

Notation "x <- m ;; k" := (bind m (fun x => k))
  (at level 100, m at next level, right associativity).

(** [crypto.timingSafeEqual(a, b)]: throws on buffers of different
    lengths, otherwise tells whether they hold the same bytes. *)
Definition timingSafeEqual (a b : Buffer) : M bool :=
  mkM [TimingSafeEqual a b]
      (if len a =? len b then Return (bool_decide (a = b))
       else Throw ERR_CRYPTO_TIMING_SAFE_EQUAL_LENGTH).

Definition equal_length_call (e : event) : Prop :=
  match e with TimingSafeEqual a b => length a = length b end.

(** Every constant-time comparison of a run was given buffers of one
    length. *)
Definition guarded {A} (m : M A) : Prop :=
  Forall equal_length_call (trace m).

(** ** What the module imports *)

(** [AUTH_APP_PARAMS] of [../../variables]. *)
Record AuthAppParams : Type := {
  totp_length : Z;
  totp_period : Z;
  totp_hash_algorithm : string
}.

(** The configuration the specification allows: a positive code length
    and a positive period. *)
Definition valid_params (p : AuthAppParams) : Prop :=
  0 < totp_length p /\ 0 < totp_period p.

(** The imported functions: [createHmac(alg, key).update(msg).digest()]
    of Node's [crypto], [customBase32Decode] of [./base32EncodeAndDecode]
    (it may throw) and [Buffer.from(s, "base64")] (it never throws). *)
Class Host : Type := {
  AUTH_APP_PARAMS : AuthAppParams;
  hmac_digest : string -> Buffer -> Buffer -> Buffer;
  customBase32Decode : js_string -> outcome Buffer;
  Buffer_from_base64 : js_string -> Buffer
}.

(** ** The module *)

Section Module.
Context `{H : Host}.

(** The [for] loop of [generateHotp]: [i] runs from [0] while [i < 8]. *)
Fixpoint serialize_loop (fuel : nat) (i counter : Z) (buffer : Buffer)
  : Buffer :=
  match fuel with
  | O => buffer
  | S fuel' =>
      if i <? 8
      then serialize_loop fuel' (i + 1) (sar counter 8)
             (store buffer (7 - i) (band counter 0xff))
      else buffer
  end.

Definition counter_buffer (counter : Z) : Buffer :=
  serialize_loop 8 0 counter (Buffer_alloc 8).

(** [offset] and [code] of [generateHotp]. *)
Definition truncation_offset (hmacResult : Buffer) : Z :=
  band (operand (index hmacResult (len hmacResult - 1))) 0xf.

Definition truncated_code (hmacResult : Buffer) : Z :=
  let offset := truncation_offset hmacResult in
  bor (bor (bor
    (shl (band (operand (index hmacResult offset)) 0x7f) 24)
    (shl (band (operand (index hmacResult (offset + 1))) 0xff) 16))
    (shl (band (operand (index hmacResult (offset + 2))) 0xff) 8))
    (band (operand (index hmacResult (offset + 3))) 0xff).

Definition format_code (code : Z) : js_string :=
  padStart
    (Number_toString (rem code (pow 10 (totp_length AUTH_APP_PARAMS))))
    (totp_length AUTH_APP_PARAMS) (str "0").

Definition generateHotp (secretKeyBuffer : Buffer) (counter : Z) : js_string :=
  let buffer := counter_buffer counter in
  let hmacResult :=
    hmac_digest (totp_hash_algorithm AUTH_APP_PARAMS) secretKeyBuffer buffer in
  format_code (truncated_code hmacResult).

Definition generateTotp (dbSecretKey : js_string) (counter : Z)
  : M js_string :=
  secretKeyBuffer <- lift (customBase32Decode dbSecretKey) ;;
  ret (generateHotp secretKeyBuffer counter).

Record TotpVerificationInput : Type := {
  userTotp : js_string;
  dbSecretKey : js_string
}.

(** [a.length === b.length && timingSafeEqual(a, b)]. *)
Definition same_length_and_equal (a b : Buffer) : M bool :=
  if len a =? len b then timingSafeEqual a b else ret false.

(** The drift loop of [verifyTotp]: [errorWindow] runs while
    [errorWindow <= window]. *)
Fixpoint drift_loop (fuel : nat) (window : Z) (dbKey : js_string)
    (currentCounter : Z) (userTotpBuffer : Buffer) (errorWindow : Z)
  : M bool :=
  match fuel with
  | O => ret false
  | S fuel' =>
      if errorWindow <=? window then
        serverTotpPrev <- generateTotp dbKey (currentCounter - errorWindow) ;;
        serverTotpNext <- generateTotp dbKey (currentCounter + errorWindow) ;;
        let serverTotpPrevBuffer := Buffer_from serverTotpPrev in
        let serverTotpNextBuffer := Buffer_from serverTotpNext in
        okPrev <- same_length_and_equal userTotpBuffer serverTotpPrevBuffer ;;
        if okPrev then ret true else
        okNext <- same_length_and_equal userTotpBuffer serverTotpNextBuffer ;;
        if okNext then ret true else
        drift_loop fuel' window dbKey currentCounter userTotpBuffer
          (errorWindow + 1)
      else ret false
  end.

(** [verifyTotp]; [now] is the value [Date.now()] returns. *)
Definition verifyTotp (now : Z) (input : TotpVerificationInput) : M bool :=
  let currentCounter := floor_div now (totp_period AUTH_APP_PARAMS) in
  let window := 1 in
  serverTotpCurr <- generateTotp (dbSecretKey input) currentCounter ;;
  let userTotpBuffer := Buffer_from (userTotp input) in
  let serverTotpBuffer := Buffer_from serverTotpCurr in
  if negb (len userTotpBuffer =? len serverTotpBuffer) then ret false else
  okCurr <- timingSafeEqual userTotpBuffer serverTotpBuffer ;;
  if okCurr then ret true else
  drift_loop (Z.to_nat window) window (dbSecretKey input) currentCounter
    userTotpBuffer 1.

Definition verifySecretKey (userSecretKey dbKey : js_string) : M bool :=
  try_catch
    (let userSecretKeyBuffer := Buffer_from_base64 userSecretKey in
     let dbSecretKeyBuffer := Buffer_from_base64 dbKey in
     if negb (len userSecretKeyBuffer =? len dbSecretKeyBuffer)
     then ret false
     else
       isEqual <- timingSafeEqual userSecretKeyBuffer dbSecretKeyBuffer ;;
       ret isEqual)
    (fun err => ret false).

End Module.

(** ** A reference host

    The imported functions are parameters of every theorem.  To run the
    module on concrete inputs they are instantiated here: HMAC-SHA-256
    (FIPS 180-4, RFC 2104) for [createHmac], the RFC 4648 base32
    alphabet for [customBase32Decode], and the lenient base64 decoding
    of [Buffer.from]. *)

Module SHA256.

Definition w32 (x : Z) : Z := x mod 2 ^ 32.
Definition add32 (x y : Z) : Z := w32 (x + y).
Definition rotr (n x : Z) : Z :=
  Z.lor (Z.shiftr x n) (w32 (Z.shiftl x (32 - n))).
Definition Ch (x y z : Z) : Z :=
  Z.lxor (Z.land x y) (Z.land (w32 (Z.lnot x)) z).
Definition Maj (x y z : Z) : Z :=
  Z.lxor (Z.lxor (Z.land x y) (Z.land x z)) (Z.land y z).
Definition Sigma0 (x : Z) : Z :=
  Z.lxor (Z.lxor (rotr 2 x) (rotr 13 x)) (rotr 22 x).
Definition Sigma1 (x : Z) : Z :=
  Z.lxor (Z.lxor (rotr 6 x) (rotr 11 x)) (rotr 25 x).
Definition sigma0 (x : Z) : Z :=
  Z.lxor (Z.lxor (rotr 7 x) (rotr 18 x)) (Z.shiftr x 3).
Definition sigma1 (x : Z) : Z :=
  Z.lxor (Z.lxor (rotr 17 x) (rotr 19 x)) (Z.shiftr x 10).

(** The round constants are the first 32 bits of the fractional parts
    of the cube roots of the first 64 primes, the initial state those of
    the square roots of the first 8 primes. *)
Definition is_prime (n : Z) : bool :=
  forallb (fun d => negb (n mod Z.of_nat d =? 0)) (seq 2 (Z.to_nat n - 2)).

Definition primes : list Z :=
  filter (fun n => is_prime n) (map Z.of_nat (seq 2 310)).

(** The largest [r] below [2^bits] with [r^3 <= x], found bit by bit. *)
Fixpoint cube_root (bits : nat) (x r : Z) : Z :=
  match bits with
  | O => r
  | S b =>
      let r' := r + 2 ^ Z.of_nat b in
      cube_root b x (if r' * r' * r' <=? x then r' else r)
  end.

Definition K : list Z :=
  map (fun p => w32 (cube_root 40 (p * 2 ^ 96) 0)) (take 64 primes).

Definition H0 : list Z :=
  map (fun p => w32 (Z.sqrt (p * 2 ^ 64))) (take 8 primes).

(** Big-endian bytes of a word, and back. *)
Fixpoint be_bytes (n : nat) (x : Z) : list Z :=
  match n with
  | O => []
  | S n' => (Z.shiftr x (8 * Z.of_nat n')) mod 256 :: be_bytes n' x
  end.

Definition be_word (bs : list Z) : Z :=
  fold_left (fun acc b => acc * 256 + b) bs 0.

Definition pad (msg : list Z) : list Z :=
  let l := Z.of_nat (length msg) in
  let zeros := Z.to_nat ((55 - l) mod 64) in
  msg ++ [0x80] ++ repeat 0 zeros ++ be_bytes 8 (8 * l).

Fixpoint words (n : nat) (bs : list Z) : list Z :=
  match n with
  | O => []
  | S n' => be_word (take 4 bs) :: words n' (drop 4 bs)
  end.

(** The message schedule, extended one word at a time. *)
Fixpoint schedule (n : nat) (w : list Z) : list Z :=
  match n with
  | O => w
  | S n' =>
      let t := length w in
      let at_ k := nth (t - k) w 0 in
      schedule n'
        (w ++ [add32 (add32 (sigma1 (at_ 2%nat)) (at_ 7%nat))
                     (add32 (sigma0 (at_ 15%nat)) (at_ 16%nat))])
  end.

Definition round (st : list Z) (kw : Z * Z) : list Z :=
  match st with
  | [a; b; c; d; e; f; g; h] =>
      let t1 := add32 (add32 (add32 h (Sigma1 e)) (Ch e f g))
                      (add32 (fst kw) (snd kw)) in
      let t2 := add32 (Sigma0 a) (Maj a b c) in
      [add32 t1 t2; a; b; c; add32 d t1; e; f; g]
  | _ => st
  end.

Definition compress (h : list Z) (block : list Z) : list Z :=
  let w := schedule 48 (words 16 block) in
  let st := fold_left round (combine K w) h in
  map (fun p => add32 (fst p) (snd p)) (combine h st).

Fixpoint blocks (n : nat) (h : list Z) (bs : list Z) : list Z :=
  match n with
  | O => h
  | S n' => blocks n' (compress h (take 64 bs)) (drop 64 bs)
  end.

Definition sha256 (msg : list Z) : list Z :=
  let p := pad msg in
  flat_map (be_bytes 4) (blocks (length p / 64) H0 p).

Definition xor_pad (c : Z) (key : list Z) : list Z :=
  map (Z.lxor c) (key ++ repeat 0 (64 - length key)).

Definition hmac (key msg : list Z) : list Z :=
  let key' := if (64 <? length key)%nat then sha256 key else key in
  sha256 (xor_pad 0x5c key' ++ sha256 (xor_pad 0x36 key' ++ msg)).

End SHA256.

Module Base32.

Definition value (c : Z) : option Z :=
  if (65 <=? c) && (c <=? 90) then Some (c - 65)
  else if (50 <=? c) && (c <=? 55) then Some (c - 24)
  else None.

(** Strip the padding at the end. *)
Fixpoint strip_padding (s : js_string) : js_string :=
  match s with
  | [] => []
  | c :: rest =>
      match strip_padding rest with
      | [] => if c =? 61 then [] else [c]
      | rest' => c :: rest'
      end
  end.

(** Shift the quintets into an accumulator of [bits] pending bits and
    emit each completed byte. *)
Fixpoint quintets (s : js_string) (acc bits : Z) : outcome Buffer :=
  match s with
  | [] => Return []
  | c :: rest =>
      match value c with
      | None => Throw (DecodeError "invalid base32 character")
      | Some v =>
          let acc' := acc * 32 + v in
          let bits' := bits + 5 in
          if 8 <=? bits' then
            match quintets rest (acc' mod 2 ^ (bits' - 8)) (bits' - 8) with
            | Return bs => Return (acc' / 2 ^ (bits' - 8) :: bs)
            | Throw e => Throw e
            end
          else quintets rest acc' bits'
      end
  end.

(** Modelled from the spec: [customBase32Decode] of
    [./base32EncodeAndDecode] is not among the sources; the
    specification gives [decode_base32(text) -> byte_sequence], which
    "fails with a decode error on invalid characters or padding". *)
Definition decode (s : js_string) : outcome Buffer :=
  let body := strip_padding s in
  if negb (length body =? length s)%nat && negb (length s mod 8 =? 0)%nat
  then Throw (DecodeError "invalid base32 padding")
  else quintets body 0 0.

End Base32.

Module Base64.

Definition value (c : Z) : option Z :=
  if (65 <=? c) && (c <=? 90) then Some (c - 65)
  else if (97 <=? c) && (c <=? 122) then Some (c - 71)
  else if (48 <=? c) && (c <=? 57) then Some (c + 4)
  else if (c =? 43) || (c =? 45) then Some 62
  else if (c =? 47) || (c =? 95) then Some 63
  else None.

(** The sextets of the input: each code unit is read by its low byte; a
    character outside the alphabet is skipped, the first ['='] ends the
    input. *)
Fixpoint sextets (s : js_string) : list Z :=
  match s with
  | [] => []
  | c :: rest =>
      let b := c mod 256 in
      if b =? 61 then []
      else match value b with
           | Some v => v :: sextets rest
           | None => sextets rest
           end
  end.

Fixpoint bytes (l : list Z) : Buffer :=
  match l with
  | a :: b :: c :: d :: rest =>
      [a * 4 + b / 16; (b mod 16) * 16 + c / 4; (c mod 4) * 64 + d]
        ++ bytes rest
  | [a; b; c] => [a * 4 + b / 16; (b mod 16) * 16 + c / 4]
  | [a; b] => [a * 4 + b / 16]
  | _ => []
  end.

(** [Buffer.from(s, "base64")] of Node: it never throws. *)
Definition decode (s : js_string) : Buffer := bytes (sextets s).

(** A string in the canonical form of RFC 4648: groups of four
    characters of the alphabet, at most two ['='] closing the last. *)
Definition alphabet (c : Z) : bool :=
  ((65 <=? c) && (c <=? 90)) || ((97 <=? c) && (c <=? 122))
  || ((48 <=? c) && (c <=? 57)) || (c =? 43) || (c =? 47).

Definition well_formed (s : js_string) : bool :=
  (length s mod 4 =? 0)%nat &&
  match rev s with
  | 61 :: 61 :: body | 61 :: body | body => forallb alphabet body
  end.

End Base64.

(** Modelled from the spec: [AUTH_APP_PARAMS] of [../../variables] is not
    among the sources; the reference configuration has six digits, a
    period of 30 s (here in the milliseconds of [Date.now()]) and a
    256-bit hash. *)
Definition reference_params : AuthAppParams :=
  {| totp_length := 6; totp_period := 30000; totp_hash_algorithm := "sha256" |}.

Definition reference_host : Host :=
  {| AUTH_APP_PARAMS := reference_params;
     hmac_digest := fun _ key msg => SHA256.hmac key msg;
     customBase32Decode := Base32.decode;
     Buffer_from_base64 := Base64.decode |}.

Definition hex_byte (b : Z) : js_string :=
  let h d := if d <? 10 then 48 + d else 87 + d in [h (b / 16); h (b mod 16)].
Definition hex (bs : list Z) : js_string := flat_map hex_byte bs.


(** The secret of the RFC 6238 test vectors for SHA-256, in base32,
    and a secret with a character outside the base32 alphabet. *)
Definition rfc6238_key : Buffer := str "12345678901234567890123456789012".

Definition rfc6238_secret : js_string :=
  str "GEZDGNBVGY3TQOJQGEZDGNBVGY3TQOJQGEZDGNBVGY3TQOJQGEZA====".

Definition malformed_secret : js_string := str "JBSWY3DPEHPK3PX1".

(** ** The serialization the specification asks for *)

(** Byte [i] of the message is [floor(counter / 256^(7-i)) mod 256]. *)
Definition big_endian_8 (counter : Z) : Buffer :=
  map (fun i => counter / 256 ^ (7 - i) mod 256) [0; 1; 2; 3; 4; 5; 6; 7].

(** A run that ends with a value. *)
Definition returns {A} (m : M A) : Prop := exists a, result m = Return a.

(** The dynamic truncation as RFC 4226 (section 5.3) states it: the low
    four bits of the last byte give the offset of a four-byte big-endian
    number, whose top bit is dropped. *)
Definition rfc4226_truncate (digest : Buffer) : Z :=
  let o := Z.to_nat (nth (length digest - 1) digest 0 mod 16) in
  (nth o digest 0 mod 128) * 2 ^ 24
  + nth (o + 1) digest 0 * 2 ^ 16
  + nth (o + 2) digest 0 * 2 ^ 8
  + nth (o + 3) digest 0.

Definition is_byte (b : Z) : Prop := 0 <= b < 256.

(** The reference host with another code length. *)
Definition host_with_length (n : Z) : Host :=
  {| AUTH_APP_PARAMS :=
       {| totp_length := n; totp_period := 30000;
          totp_hash_algorithm := "sha256" |};
     hmac_digest := fun _ key msg => SHA256.hmac key msg;
     customBase32Decode := Base32.decode;
     Buffer_from_base64 := Base64.decode |}.

(** ** The 32-bit operators *)

Lemma ToInt32_small (x : Z) : 0 <= x < 2 ^ 31 -> ToInt32 x = x.
Proof.
  intros Hx. unfold ToInt32.
  rewrite Z.mod_small by lia.
  destruct (Z.ltb_spec x (2 ^ 31)); lia.
Qed.

Lemma band_ones (a : Z) (k : Z) :
  0 <= k < 31 -> band a (Z.ones k) = ToInt32 a mod 2 ^ k.
Proof.
  intros Hk. unfold band.
  assert (Hr : 0 <= Z.ones k < 2 ^ 31).
  { rewrite Z.ones_equiv.
    assert (0 < 2 ^ k) by (apply Z.pow_pos_nonneg; lia).
    assert (2 ^ k <= 2 ^ 30) by (apply Z.pow_le_mono_r; lia).
    lia. }
  rewrite (ToInt32_small _ Hr). apply Z.land_ones. lia.
Qed.

Lemma band_0xf (a : Z) : band a 0xf = ToInt32 a mod 16.
Proof. apply (band_ones a 4). lia. Qed.

Lemma band_0x7f (a : Z) : band a 0x7f = ToInt32 a mod 128.
Proof. apply (band_ones a 7). lia. Qed.

Lemma band_0xff (a : Z) : band a 0xff = ToInt32 a mod 256.
Proof. apply (band_ones a 8). lia. Qed.

Lemma shl_small (x n : Z) :
  0 <= n < 32 -> 0 <= x -> x * 2 ^ n < 2 ^ 31 -> shl x n = x * 2 ^ n.
Proof.
  intros Hn Hx Hb. unfold shl.
  assert (0 < 2 ^ n) by (apply Z.pow_pos_nonneg; lia).
  assert (x < 2 ^ 31) by nia.
  rewrite (ToInt32_small x) by lia.
  rewrite (Z.mod_small n 32) by lia.
  rewrite Z.shiftl_mul_pow2 by lia.
  apply ToInt32_small. nia.
Qed.

Lemma lor_lt_pow2 (a b n : Z) :
  0 <= a < 2 ^ n -> 0 <= b < 2 ^ n -> 0 <= Z.lor a b < 2 ^ n.
Proof.
  intros Ha Hb.
  assert (Hnn : 0 <= Z.lor a b) by (apply Z.lor_nonneg; lia).
  split; [exact Hnn|].
  destruct (Z.eq_dec a 0) as [->|Hane]; [rewrite Z.lor_0_l; lia|].
  destruct (Z.eq_dec b 0) as [->|Hbne]; [rewrite Z.lor_0_r; lia|].
  assert (Hpos : 0 < Z.lor a b).
  { destruct (Z.eq_dec (Z.lor a b) 0) as [E|E]; [|lia].
    apply Z.lor_eq_0_iff in E. lia. }
  apply Z.log2_lt_pow2; [exact Hpos|].
  rewrite Z.log2_lor by lia.
  apply Z.max_lub_lt; apply Z.log2_lt_pow2; lia.
Qed.

Lemma bor_small (a b : Z) :
  0 <= a < 2 ^ 31 -> 0 <= b < 2 ^ 31 ->
  bor a b = Z.lor a b /\ 0 <= bor a b < 2 ^ 31.
Proof.
  intros Ha Hb. unfold bor.
  rewrite !ToInt32_small by assumption.
  split; [reflexivity|]. apply lor_lt_pow2; assumption.
Qed.

Lemma sar_small (x n : Z) :
  0 <= n < 32 -> 0 <= x < 2 ^ 31 -> sar x n = x / 2 ^ n.
Proof.
  intros Hn Hx. unfold sar.
  rewrite ToInt32_small by assumption.
  rewrite (Z.mod_small n 32) by lia.
  apply Z.shiftr_div_pow2. lia.
Qed.

Lemma lor_disjoint (a b n : Z) :
  0 <= n -> 0 <= b < 2 ^ n -> Z.lor (a * 2 ^ n) b = a * 2 ^ n + b.
Proof.
  intros Hn Hb.
  assert (Hland : Z.land (a * 2 ^ n) b = 0).
  { apply Z.bits_inj'. intros i Hi.
    rewrite Z.land_spec, Z.bits_0.
    destruct (Z.lt_ge_cases i n) as [Hlt|Hge].
    - rewrite Z.mul_pow2_bits_low by lia. reflexivity.
    - destruct (Z.eq_dec b 0) as [->|Hb0];
        [rewrite Z.bits_0; apply andb_false_r|].
      rewrite (Z.bits_above_log2 b i), andb_false_r; [reflexivity|lia|].
      assert (Z.log2 b < n) by (apply Z.log2_lt_pow2; lia). lia. }
  pose proof (Z.add_lor_land (a * 2 ^ n) b) as Hadd.
  rewrite Hland in Hadd. lia.
Qed.

Lemma bor_disjoint (a b n : Z) :
  0 <= n -> 0 <= a -> 0 <= b < 2 ^ n -> a * 2 ^ n + b < 2 ^ 31 ->
  bor (a * 2 ^ n) b = a * 2 ^ n + b.
Proof.
  intros Hn Ha Hb Hlt.
  assert (0 < 2 ^ n) by (apply Z.pow_pos_nonneg; lia).
  destruct (bor_small (a * 2 ^ n) b) as [E _]; [nia|lia|].
  rewrite E. now apply lor_disjoint.
Qed.

(** ** Dynamic truncation *)

Lemma truncation_offset_range (hmacResult : Buffer) :
  0 <= truncation_offset hmacResult <= 15.
Proof.
  unfold truncation_offset. rewrite band_0xf.
  pose proof (Z.mod_pos_bound
    (ToInt32 (operand (index hmacResult (len hmacResult - 1)))) 16).
  lia.
Qed.

Lemma index_in_bounds (buf : Buffer) (i : Z) :
  0 <= i < len buf -> is_Some (index buf i).
Proof.
  intros Hi. unfold index, len in *.
  destruct (Z.ltb_spec i 0); [lia|].
  apply lookup_lt_is_Some. lia.
Qed.

Lemma index_out_of_bounds (buf : Buffer) (i : Z) :
  i < 0 \/ len buf <= i -> index buf i = None.
Proof.
  intros Hi. unfold index, len in *.
  destruct (Z.ltb_spec i 0); [reflexivity|].
  apply lookup_ge_None. lia.
Qed.

Lemma truncated_code_range (hmacResult : Buffer) :
  0 <= truncated_code hmacResult < 2 ^ 31.
Proof.
  unfold truncated_code.
  set (o := truncation_offset hmacResult).
  set (b0 := operand (index hmacResult o)).
  set (b1 := operand (index hmacResult (o + 1))).
  set (b2 := operand (index hmacResult (o + 2))).
  set (b3 := operand (index hmacResult (o + 3))).
  rewrite band_0x7f, !band_0xff.
  pose proof (Z.mod_pos_bound (ToInt32 b0) 128) as M0.
  pose proof (Z.mod_pos_bound (ToInt32 b1) 256) as M1.
  pose proof (Z.mod_pos_bound (ToInt32 b2) 256) as M2.
  pose proof (Z.mod_pos_bound (ToInt32 b3) 256) as M3.
  rewrite !shl_small by lia.
  assert (B24 : 0 <= ToInt32 b0 mod 128 * 2 ^ 24 < 2 ^ 31) by lia.
  assert (B16 : 0 <= ToInt32 b1 mod 256 * 2 ^ 16 < 2 ^ 31) by lia.
  assert (B8 : 0 <= ToInt32 b2 mod 256 * 2 ^ 8 < 2 ^ 31) by lia.
  assert (B0 : 0 <= ToInt32 b3 mod 256 < 2 ^ 31) by lia.
  destruct (bor_small _ _ B24 B16) as [_ Hx].
  destruct (bor_small _ _ Hx B8) as [_ Hy].
  destruct (bor_small _ _ Hy B0) as [_ Hz].
  exact Hz.
Qed.

(** On a digest whose bytes are bytes, the truncated value is the
    31-bit big-endian number of RFC 4226 at the offset. *)
Lemma truncated_code_value (hmacResult : Buffer) (b0 b1 b2 b3 : Z) :
  index hmacResult (truncation_offset hmacResult) = Some b0 ->
  index hmacResult (truncation_offset hmacResult + 1) = Some b1 ->
  index hmacResult (truncation_offset hmacResult + 2) = Some b2 ->
  index hmacResult (truncation_offset hmacResult + 3) = Some b3 ->
  0 <= b0 < 256 -> 0 <= b1 < 256 -> 0 <= b2 < 256 -> 0 <= b3 < 256 ->
  truncated_code hmacResult
  = (b0 mod 128) * 2 ^ 24 + b1 * 2 ^ 16 + b2 * 2 ^ 8 + b3.
Proof.
  intros I0 I1 I2 I3 R0 R1 R2 R3. unfold truncated_code.
  rewrite I0, I1, I2, I3. cbn [operand].
  rewrite band_0x7f, !band_0xff, !ToInt32_small by lia.
  rewrite (Z.mod_small b1), (Z.mod_small b2), (Z.mod_small b3) by lia.
  pose proof (Z.mod_pos_bound b0 128 ltac:(lia)) as M0.
  set (m := b0 mod 128) in *.
  rewrite !shl_small by lia.
  rewrite (bor_disjoint m (b1 * 2 ^ 16) 24) by lia.
  replace (m * 2 ^ 24 + b1 * 2 ^ 16) with ((m * 2 ^ 8 + b1) * 2 ^ 16) by lia.
  rewrite (bor_disjoint (m * 2 ^ 8 + b1) (b2 * 2 ^ 8) 16) by lia.
  replace ((m * 2 ^ 8 + b1) * 2 ^ 16 + b2 * 2 ^ 8)
    with ((m * 2 ^ 16 + b1 * 2 ^ 8 + b2) * 2 ^ 8) by lia.
  rewrite (bor_disjoint (m * 2 ^ 16 + b1 * 2 ^ 8 + b2) b3 8) by lia.
  lia.
Qed.

(** ** Rendering the code *)

Lemma decimal_value_snoc (ds : js_string) (c : Z) :
  decimal_value (ds ++ [c]) = 10 * decimal_value ds + (c - 48).
Proof. unfold decimal_value. rewrite fold_left_app. reflexivity. Qed.

Lemma is_digit_digit (d : Z) : 0 <= d < 10 -> is_digit (digit d) = true.
Proof.
  intros Hd. unfold is_digit, digit.
  apply andb_true_intro; split; apply Z.leb_le; lia.
Qed.

Lemma digits_acc_S (fuel : nat) (n : Z) (acc : js_string) :
  digits_acc (S fuel) n acc =
  if n / 10 =? 0 then digit (n mod 10) :: acc
  else digits_acc fuel (n / 10) (digit (n mod 10) :: acc).
Proof. reflexivity. Qed.

Lemma digits_acc_spec (fuel : nat) :
  forall (n : Z) (acc : js_string),
    0 <= n < 2 ^ Z.of_nat (S fuel) ->
    exists ds,
      digits_acc (S fuel) n acc = ds ++ acc /\
      Forall (fun c => is_digit c = true) ds /\
      decimal_value ds = n /\
      (forall k : nat, (0 < k)%nat -> n < 10 ^ Z.of_nat k ->
                       (0 < length ds <= k)%nat).
Proof.
  induction fuel as [|fuel IH]; intros n acc Hn; rewrite digits_acc_S;
    pose proof (Z.mod_pos_bound n 10 ltac:(lia)) as Hm;
    pose proof (Z.div_mod n 10 ltac:(lia)) as Hdm;
    destruct (Z.eqb_spec (n / 10) 0) as [Hz|Hnz].
  1, 3: exists [digit (n mod 10)]; split; [reflexivity|]; split;
    [constructor; [apply is_digit_digit; lia|constructor]|]; split;
    [unfold decimal_value, digit; simpl; lia|];
    intros k Hk _; simpl; lia.
  - exfalso. apply Hnz. apply Z.div_small. simpl in Hn. lia.
  - assert (Hq : 0 <= n / 10 < 2 ^ Z.of_nat (S fuel)).
    { split; [apply Z.div_pos; lia|].
      apply Z.div_lt_upper_bound; [lia|].
      replace (Z.of_nat (S (S fuel))) with (Z.of_nat (S fuel) + 1) in Hn
        by lia.
      rewrite Z.pow_add_r in Hn by lia.
      assert (0 < 2 ^ Z.of_nat (S fuel)) by (apply Z.pow_pos_nonneg; lia).
      lia. }
    destruct (IH (n / 10) (digit (n mod 10) :: acc) Hq)
      as (ds & Heq & Hall & Hval & Hlen).
    exists (ds ++ [digit (n mod 10)]). split; [|split; [|split]].
    + rewrite Heq, <- app_assoc. reflexivity.
    + apply Forall_app; split; [exact Hall|].
      constructor; [apply is_digit_digit; lia|constructor].
    + rewrite decimal_value_snoc, Hval. unfold digit. lia.
    + intros k Hk Hlt. rewrite length_app. simpl.
      destruct k as [|[|k]]; [lia| |].
      * exfalso. apply Hnz. apply Z.div_small. simpl in Hlt. lia.
      * assert (Hk' : n / 10 < 10 ^ Z.of_nat (S k)).
        { apply Z.div_lt_upper_bound; [lia|].
          replace (Z.of_nat (S (S k))) with (1 + Z.of_nat (S k)) in Hlt
            by lia.
          rewrite Z.pow_add_r in Hlt by lia. lia. }
        pose proof (Hlen (S k) ltac:(lia) Hk'). lia.
Qed.

Lemma Number_toString_spec (n : Z) :
  0 <= n ->
  Forall (fun c => is_digit c = true) (Number_toString n) /\
  decimal_value (Number_toString n) = n /\
  (forall k : nat, (0 < k)%nat -> n < 10 ^ Z.of_nat k ->
                   (0 < length (Number_toString n) <= k)%nat).
Proof.
  intros Hn. unfold Number_toString.
  destruct (Z.ltb_spec n 0); [lia|].
  assert (Hb : 0 <= n < 2 ^ Z.of_nat (S (Z.to_nat (Z.log2 n)))).
  { split; [exact Hn|].
    pose proof (Z.log2_nonneg n).
    replace (Z.of_nat (S (Z.to_nat (Z.log2 n)))) with (Z.succ (Z.log2 n))
      by lia.
    destruct (Z.eq_dec n 0) as [->|]; [reflexivity|].
    apply Z.log2_spec. lia. }
  destruct (digits_acc_spec _ n [] Hb) as (ds & Heq & Hall & Hval & Hlen).
  rewrite Heq, app_nil_r. auto.
Qed.

Lemma concat_repeat_singleton {A} (x : A) (n : nat) :
  concat (repeat [x] n) = repeat x n.
Proof. induction n as [|n IH]; simpl; [reflexivity|now rewrite IH]. Qed.

Lemma padStart_zero (s : js_string) (targetLength : Z) :
  padStart s targetLength (str "0") =
  repeat 48 (Z.to_nat (targetLength - len s)) ++ s.
Proof.
  unfold padStart. change (str "0") with [48]. cbv beta iota zeta.
  rewrite concat_repeat_singleton.
  rewrite take_ge by (rewrite repeat_length; lia).
  reflexivity.
Qed.

Lemma decimal_value_leading_zeros (n : nat) (ds : js_string) :
  decimal_value (repeat 48 n ++ ds) = decimal_value ds.
Proof.
  unfold decimal_value. rewrite fold_left_app.
  replace (fold_left (fun acc c => 10 * acc + (c - 48)) (repeat 48 n) 0)
    with 0; [reflexivity|].
  induction n as [|n IH]; simpl; [reflexivity|exact IH].
Qed.

Lemma Forall_repeat_zero (n : nat) :
  Forall (fun c => is_digit c = true) (repeat 48 n).
Proof. induction n; simpl; constructor; auto. Qed.

Section Rendering.
Context `{H : Host}.

Lemma format_code_spec (code : Z) :
  0 < totp_length AUTH_APP_PARAMS -> 0 <= code ->
  len (format_code code) = totp_length AUTH_APP_PARAMS /\
  Forall (fun c => is_digit c = true) (format_code code) /\
  decimal_value (format_code code)
    = code mod 10 ^ totp_length AUTH_APP_PARAMS.
Proof.
  intros HL Hc. unfold format_code, rem, pow.
  set (L := totp_length AUTH_APP_PARAMS) in *.
  assert (Hp : 0 < 10 ^ L) by (apply Z.pow_pos_nonneg; lia).
  rewrite Z.rem_mod_nonneg by lia.
  pose proof (Z.mod_pos_bound code (10 ^ L) Hp) as Hr.
  set (r := code mod 10 ^ L) in *.
  destruct (Number_toString_spec r ltac:(lia)) as (Hall & Hval & Hlen).
  assert (Hk : (0 < length (Number_toString r) <= Z.to_nat L)%nat).
  { apply Hlen; [lia|]. rewrite Z2Nat.id by lia. lia. }
  rewrite padStart_zero. split; [|split].
  - unfold len in *. rewrite length_app, repeat_length. lia.
  - apply Forall_app; split; [apply Forall_repeat_zero|exact Hall].
  - rewrite decimal_value_leading_zeros. exact Hval.
Qed.

Lemma generateHotp_spec (secretKeyBuffer : Buffer) (counter : Z) :
  0 < totp_length AUTH_APP_PARAMS ->
  len (generateHotp secretKeyBuffer counter) = totp_length AUTH_APP_PARAMS /\
  Forall (fun c => is_digit c = true) (generateHotp secretKeyBuffer counter).
Proof.
  intros HL. unfold generateHotp.
  destruct (format_code_spec
    (truncated_code
       (hmac_digest (totp_hash_algorithm AUTH_APP_PARAMS) secretKeyBuffer
          (counter_buffer counter))) HL) as (Hlen & Hall & _).
  - apply truncated_code_range.
  - split; assumption.
Qed.

End Rendering.

(** ** UTF-8 bytes of a string of digits *)

Lemma lor_top_bit (a x y : Z) :
  Z.testbit a 7 = true -> Z.lor a x = y -> is_digit y = true -> False.
Proof.
  intros Ha <- Hd. unfold is_digit in Hd.
  apply andb_prop in Hd as [Hlo Hhi].
  apply Z.leb_le in Hlo. apply Z.leb_le in Hhi.
  assert (Hbit : Z.testbit (Z.lor a x) 7 = true)
    by (rewrite Z.lor_spec, Ha; reflexivity).
  rewrite Z.bits_above_log2 in Hbit; [discriminate|lia|].
  apply Z.log2_lt_pow2; lia.
Qed.

Lemma Buffer_from_digits (s : js_string) :
  Forall (fun c => is_digit c = true) s -> Buffer_from s = s.
Proof.
  induction 1 as [|c rest Hc _ IH]; [reflexivity|].
  simpl. unfold is_digit in Hc.
  apply andb_prop in Hc as [_ Hhi]. apply Z.leb_le in Hhi.
  destruct (Z.ltb_spec c 128); [|lia]. now rewrite IH.
Qed.

Lemma Buffer_from_digits_inv (s : js_string) :
  forall ds : Buffer,
    Forall (fun c => is_digit c = true) ds -> Buffer_from s = ds -> s = ds.
Proof.
  induction s as [|c rest IH]; intros ds Hds Heq.
  - simpl in Heq. exact Heq.
  - simpl in Heq.
    destruct (c <? 128).
    { destruct ds as [|d ds']; [discriminate|].
      injection Heq as -> Hrest. f_equal. apply IH; [|exact Hrest].
      exact (Forall_inv_tail Hds). }
    exfalso.
    assert (Hhead : forall a x tl, Z.testbit a 7 = true ->
                      Z.lor a x :: tl = ds -> False).
    { intros a x tl Ha E. rewrite <- E in Hds.
      exact (lor_top_bit a x _ Ha eq_refl (Forall_inv Hds)). }
    assert (Hrepl : forall tl, utf8_replacement ++ tl = ds -> False).
    { intros tl E. rewrite <- E in Hds. pose proof (Forall_inv Hds) as Hd.
      discriminate Hd. }
    destruct (c <? 2048); [(refine (Hhead _ _ _ _ Heq); reflexivity)|].
    destruct (is_high_surrogate c).
    { destruct rest as [|d rest']; [exact (Hrepl [] Heq)|].
      destruct (is_low_surrogate d);
        [(refine (Hhead _ _ _ _ Heq); reflexivity)|exact (Hrepl _ Heq)]. }
    destruct (is_low_surrogate c);
      [exact (Hrepl _ Heq)|(refine (Hhead _ _ _ _ Heq); reflexivity)].
Qed.

(** ** The monad *)

Lemma bind_ret_l {A B} (a : A) (k : A -> M B) : bind (ret a) k = k a.
Proof. unfold bind, ret. simpl. now destruct (k a). Qed.

Lemma result_bind {A B} (m : M A) (k : A -> M B) :
  result (bind m k) =
  match result m with Return a => result (k a) | Throw e => Throw e end.
Proof. unfold bind. now destruct (result m). Qed.

Lemma trace_bind {A B} (m : M A) (k : A -> M B) :
  trace (bind m k) =
  match result m with
  | Return a => trace m ++ trace (k a)
  | Throw _ => trace m
  end.
Proof. unfold bind. now destruct (result m). Qed.

Lemma guarded_ret {A} (a : A) : guarded (ret a).
Proof. constructor. Qed.

Lemma guarded_lift {A} (o : outcome A) : guarded (lift o).
Proof. constructor. Qed.

Lemma guarded_bind {A B} (m : M A) (k : A -> M B) :
  guarded m -> (forall a, guarded (k a)) -> guarded (bind m k).
Proof.
  unfold guarded. intros Hm Hk. rewrite trace_bind.
  destruct (result m); [|exact Hm].
  apply Forall_app; split; [exact Hm|apply Hk].
Qed.

Lemma len_eqb_true {A} (a b : list A) :
  (len a =? len b) = true -> length a = length b.
Proof. unfold len. intros E. apply Z.eqb_eq in E. lia. Qed.

Lemma timingSafeEqual_guarded (a b : Buffer) :
  (len a =? len b) = true -> guarded (timingSafeEqual a b).
Proof.
  intros E. constructor; [|constructor]. simpl. now apply len_eqb_true.
Qed.

Lemma timingSafeEqual_result (a b : Buffer) :
  (len a =? len b) = true ->
  result (timingSafeEqual a b) = Return (bool_decide (a = b)).
Proof. intros E. unfold timingSafeEqual. simpl. now rewrite E. Qed.

Lemma bool_decide_length_differs (a b : Buffer) :
  (len a =? len b) = false -> bool_decide (a = b) = false.
Proof.
  intros E. apply bool_decide_eq_false. intros ->.
  rewrite Z.eqb_refl in E. discriminate.
Qed.

Section Verifier.
Context `{H : Host}.

Lemma same_length_and_equal_guarded (a b : Buffer) :
  guarded (same_length_and_equal a b).
Proof.
  unfold same_length_and_equal.
  destruct (len a =? len b) eqn:E;
    [now apply timingSafeEqual_guarded|apply guarded_ret].
Qed.

Lemma same_length_and_equal_result (a b : Buffer) :
  result (same_length_and_equal a b) = Return (bool_decide (a = b)).
Proof.
  unfold same_length_and_equal.
  destruct (len a =? len b) eqn:E.
  - now apply timingSafeEqual_result.
  - simpl. now rewrite bool_decide_length_differs.
Qed.

Lemma generateTotp_decoded (dbKey : js_string) (key : Buffer) (c : Z) :
  customBase32Decode dbKey = Return key ->
  generateTotp dbKey c = ret (generateHotp key c).
Proof.
  intros E. unfold generateTotp. rewrite E.
  change (lift (Return key)) with (ret key). now rewrite bind_ret_l.
Qed.

Lemma generateTotp_throws (dbKey : js_string) (e : exn) (c : Z) :
  customBase32Decode dbKey = Throw e -> generateTotp dbKey c = throw e.
Proof. intros E. unfold generateTotp. now rewrite E. Qed.

Lemma verifyTotp_throws (now : Z)
    (input : TotpVerificationInput) (e : exn) :
  customBase32Decode (dbSecretKey input) = Throw e ->
  verifyTotp now input = throw e.
Proof.
  intros Hdec. unfold verifyTotp.
  now rewrite (generateTotp_throws _ e) by exact Hdec.
Qed.

Lemma generateTotp_guarded (dbKey : js_string) (c : Z) :
  guarded (generateTotp dbKey c).
Proof.
  unfold generateTotp. apply guarded_bind;
    [apply guarded_lift|intros; apply guarded_ret].
Qed.

Lemma drift_loop_guarded (fuel : nat) :
  forall window dbKey cur u errorWindow,
    guarded (drift_loop fuel window dbKey cur u errorWindow).
Proof.
  induction fuel as [|fuel IH]; intros; simpl; [apply guarded_ret|].
  destruct (errorWindow <=? window); [|apply guarded_ret].
  apply guarded_bind; [apply generateTotp_guarded|intros prev].
  apply guarded_bind; [apply generateTotp_guarded|intros next].
  apply guarded_bind; [apply same_length_and_equal_guarded|intros [|]];
    [apply guarded_ret|].
  apply guarded_bind; [apply same_length_and_equal_guarded|intros [|]];
    [apply guarded_ret|apply IH].
Qed.

Lemma verifyTotp_guarded (now : Z) (input : TotpVerificationInput) :
  guarded (verifyTotp now input).
Proof.
  unfold verifyTotp.
  apply guarded_bind; [apply generateTotp_guarded|intros curr].
  destruct (len (Buffer_from (userTotp input)) =? len (Buffer_from curr))
    eqn:E; cbn [negb]; [|apply guarded_ret].
  apply guarded_bind; [now apply timingSafeEqual_guarded|intros [|]];
    [apply guarded_ret|apply drift_loop_guarded].
Qed.

Lemma verifySecretKey_unfold (userSecretKey dbKey : js_string) :
  verifySecretKey userSecretKey dbKey =
  if len (Buffer_from_base64 userSecretKey) =? len (Buffer_from_base64 dbKey)
  then mkM [TimingSafeEqual (Buffer_from_base64 userSecretKey)
                            (Buffer_from_base64 dbKey)]
           (Return (bool_decide (Buffer_from_base64 userSecretKey
                                 = Buffer_from_base64 dbKey)))
  else mkM [] (Return false).
Proof.
  unfold verifySecretKey, try_catch.
  destruct (len (Buffer_from_base64 userSecretKey)
            =? len (Buffer_from_base64 dbKey)) eqn:E; simpl; [|reflexivity].
  unfold bind, timingSafeEqual. simpl. rewrite E. reflexivity.
Qed.

End Verifier.

Section Acceptance.
Context `{H : Host}.

Lemma bool_decide_utf8_digits (s : js_string) (ds : Buffer) :
  Forall (fun c => is_digit c = true) ds ->
  bool_decide (Buffer_from s = ds) = bool_decide (s = ds).
Proof.
  intros Hds. apply bool_decide_ext. split.
  - apply Buffer_from_digits_inv. exact Hds.
  - intros ->. apply Buffer_from_digits. exact Hds.
Qed.

(** The result of [verifyTotp] on a secret that decodes: the submitted
    string is one of the three candidate codes. *)
Lemma verifyTotp_result (now : Z) (input : TotpVerificationInput)
    (key : Buffer) :
  customBase32Decode (dbSecretKey input) = Return key ->
  0 < totp_length AUTH_APP_PARAMS ->
  result (verifyTotp now input) =
  Return
    (bool_decide (userTotp input
        = generateHotp key (floor_div now (totp_period AUTH_APP_PARAMS)))
     || bool_decide (userTotp input
        = generateHotp key (floor_div now (totp_period AUTH_APP_PARAMS) - 1))
     || bool_decide (userTotp input
        = generateHotp key (floor_div now (totp_period AUTH_APP_PARAMS) + 1))).
Proof.
  intros Hdec HL. unfold verifyTotp.
  set (cur := floor_div now (totp_period AUTH_APP_PARAMS)).
  rewrite (generateTotp_decoded _ key) by exact Hdec.
  rewrite bind_ret_l.
  change (Z.to_nat 1) with 1%nat. cbn [drift_loop].
  change (1 <=? 1) with true. cbv iota.
  rewrite !(generateTotp_decoded _ key) by exact Hdec.
  rewrite !bind_ret_l.
  destruct (generateHotp_spec key cur HL) as [Lc Dc].
  destruct (generateHotp_spec key (cur - 1) HL) as [Lp Dp].
  destruct (generateHotp_spec key (cur + 1) HL) as [Ln Dn].
  (* From here on the three codes are arbitrary strings of [totp_length]
     digits. *)
  generalize dependent (generateHotp key (cur + 1)). intros cn Ln Dn.
  generalize dependent (generateHotp key (cur - 1)). intros cp Lp Dp.
  generalize dependent (generateHotp key cur). intros cc Lc Dc.
  rewrite <- (bool_decide_utf8_digits (userTotp input) cc Dc),
          <- (bool_decide_utf8_digits (userTotp input) cp Dp),
          <- (bool_decide_utf8_digits (userTotp input) cn Dn).
  rewrite (Buffer_from_digits _ Dc), (Buffer_from_digits _ Dp),
          (Buffer_from_digits _ Dn).
  set (u := Buffer_from (userTotp input)).
  destruct (len u =? len cc) eqn:E; cbn [negb].
  - rewrite result_bind, timingSafeEqual_result by exact E.
    destruct (bool_decide (u = cc)); [reflexivity|].
    cbn [orb].
    rewrite result_bind, same_length_and_equal_result.
    destruct (bool_decide (u = cp)); [reflexivity|].
    rewrite result_bind, same_length_and_equal_result.
    destruct (bool_decide (u = cn)); reflexivity.
  - rewrite Lc in E.
    rewrite !bool_decide_length_differs; [reflexivity|..];
      rewrite ?Lc, ?Lp, ?Ln; exact E.
Qed.

End Acceptance.

(** ** The reference host agrees with the published test vectors *)

Example sha256_abc :
  hex (SHA256.sha256 (str "abc")) =
  str "ba7816bf8f01cfea414140de5dae2223b00361a396177a9cb410ff61f20015ad".
Proof. vm_compute. reflexivity. Qed.

Example base32_rfc6238_secret :
  Base32.decode rfc6238_secret = Return rfc6238_key.
Proof. vm_compute. reflexivity. Qed.

(** RFC 6238, appendix B, SHA-256, time 59 s (counter 1): the eight-digit
    code is 46119246, whose last six digits are 119246. *)
Example rfc6238_counter_1 :
  generateHotp (H := reference_host) rfc6238_key 1 = str "119246".
Proof. vm_compute. reflexivity. Qed.

(** ** Serialization of the counter *)

Lemma counter_buffer_below_2_31 (counter : Z) :
  0 <= counter < 2 ^ 31 -> counter_buffer counter = big_endian_8 counter.
Proof.
  intros Hc. unfold counter_buffer, big_endian_8.
  assert (Hstep : forall c, 0 <= c < 2 ^ 31 ->
            band c 0xff = c mod 256 /\ sar c 8 = c / 256 /\
            0 <= c / 256 < 2 ^ 31).
  { intros c Hb. rewrite band_0xff, ToInt32_small by exact Hb.
    rewrite sar_small by lia. change (2 ^ 8) with 256.
    split; [reflexivity|split; [reflexivity|]].
    split; [apply Z.div_pos; lia|apply Z.div_lt_upper_bound; lia]. }
  destruct (Hstep _ Hc) as (B0 & S0 & R0).
  destruct (Hstep _ R0) as (B1 & S1 & R1).
  destruct (Hstep _ R1) as (B2 & S2 & R2).
  destruct (Hstep _ R2) as (B3 & S3 & R3).
  assert (Z3 : counter / 256 / 256 / 256 / 256 = 0).
  { rewrite !Z.div_div by lia. apply Z.div_small. lia. }
  cbn [serialize_loop Z.ltb Z.compare Z.add Pos.add Pos.succ Pos.compare
       Pos.compare_cont].
  rewrite B0, S0, B1, S1, B2, S2, B3, S3, Z3.
  change (band 0 255) with 0. change (sar 0 8) with 0.
  unfold store, ToUint8. simpl.
  rewrite !Z.mod_mod by lia.
  change (256 ^ (7 - 0)) with 72057594037927936.
  change (256 ^ (7 - 1)) with 281474976710656.
  change (256 ^ (7 - 2)) with 1099511627776.
  change (256 ^ (7 - 3)) with 4294967296.
  change (256 ^ (7 - 4)) with (256 * (256 * 256)).
  change (256 ^ (7 - 5)) with (256 * 256).
  change (256 ^ (7 - 6)) with 256.
  change (256 ^ (7 - 7)) with 1.
  rewrite (Z.div_small counter 72057594037927936) by lia.
  rewrite (Z.div_small counter 281474976710656) by lia.
  rewrite (Z.div_small counter 1099511627776) by lia.
  rewrite (Z.div_small counter 4294967296) by lia.
  rewrite Z.div_1_r, !Z.div_div by lia. reflexivity.
Qed.

Lemma returns_ret {A} (a : A) : returns (ret a).
Proof. now exists a. Qed.

Lemma returns_bind {A B} (m : M A) (k : A -> M B) :
  returns m -> (forall a, returns (k a)) -> returns (bind m k).
Proof.
  intros [a Ha] Hk. destruct (Hk a) as [b Hb]. exists b.
  now rewrite result_bind, Ha.
Qed.

Section Properties.
Context `{H : Host}.

Lemma same_length_and_equal_returns (a b : Buffer) :
  returns (same_length_and_equal a b).
Proof. eexists. apply same_length_and_equal_result. Qed.

Lemma drift_loop_returns (fuel : nat) (key : Buffer) :
  forall window dbKey cur u errorWindow,
    customBase32Decode dbKey = Return key ->
    returns (drift_loop fuel window dbKey cur u errorWindow).
Proof.
  induction fuel as [|fuel IH]; intros window dbKey cur u errorWindow Hdec;
    simpl; [apply returns_ret|].
  destruct (errorWindow <=? window); [|apply returns_ret].
  rewrite !(generateTotp_decoded _ key) by exact Hdec.
  rewrite !bind_ret_l.
  apply returns_bind; [apply same_length_and_equal_returns|intros [|]];
    [apply returns_ret|].
  apply returns_bind; [apply same_length_and_equal_returns|intros [|]];
    [apply returns_ret|now apply IH].
Qed.

Lemma verifyTotp_returns (now : Z) (input : TotpVerificationInput)
    (key : Buffer) :
  customBase32Decode (dbSecretKey input) = Return key ->
  returns (verifyTotp now input).
Proof.
  intros Hdec. unfold verifyTotp.
  rewrite (generateTotp_decoded _ key) by exact Hdec. rewrite bind_ret_l.
  destruct (len (Buffer_from (userTotp input)) =? _) eqn:E; cbn [negb];
    [|apply returns_ret].
  apply returns_bind.
  - eexists. now apply timingSafeEqual_result.
  - intros [|]; [apply returns_ret|now apply (drift_loop_returns _ key)].
Qed.

(** C1. On a server secret that decodes, [verifyTotp] returns [true]
    exactly when the submitted string is the code generated for the
    current counter, the previous one or the next one (the drift window
    is 1).  In particular the codes of [current - 1] and [current + 1] are
    accepted, and a string that is only the code of [current - 2] or
    [current + 2] is rejected. *)
Theorem verifyTotp_accepts_drift_window (now : Z)
    (input : TotpVerificationInput) (key : Buffer) :
  valid_params AUTH_APP_PARAMS ->
  customBase32Decode (dbSecretKey input) = Return key ->
  (exists b : bool,
     result (verifyTotp now input) = Return b /\
     (b = true <->
      exists c : Z,
        (c = floor_div now (totp_period AUTH_APP_PARAMS)
         \/ c = floor_div now (totp_period AUTH_APP_PARAMS) - 1
         \/ c = floor_div now (totp_period AUTH_APP_PARAMS) + 1)
        /\ userTotp input = generateHotp key c))
  /\ (userTotp input
        = generateHotp key (floor_div now (totp_period AUTH_APP_PARAMS) - 1)
      \/ userTotp input
        = generateHotp key (floor_div now (totp_period AUTH_APP_PARAMS) + 1)
      -> result (verifyTotp now input) = Return true)
  /\ ((forall c : Z,
         floor_div now (totp_period AUTH_APP_PARAMS) - 1 <= c
           <= floor_div now (totp_period AUTH_APP_PARAMS) + 1 ->
         userTotp input <> generateHotp key c)
      -> result (verifyTotp now input) = Return false).
Proof.
  intros [HL _] Hdec.
  pose proof (verifyTotp_result now input key Hdec HL) as R.
  set (cur := floor_div now (totp_period AUTH_APP_PARAMS)) in *.
  set (code := generateHotp key) in *.
  clearbody code cur.
  assert (Hiff : forall b : bool,
            result (verifyTotp now input) = Return b ->
            (b = true <->
             (userTotp input = code cur
              \/ userTotp input = code (cur - 1)
              \/ userTotp input = code (cur + 1)))).
  { intros b Hb. rewrite R in Hb. injection Hb as <-.
    rewrite !orb_true_iff, !bool_decide_eq_true. tauto. }
  split; [|split].
  - eexists. split; [exact R|]. rewrite (Hiff _ R). split.
    + intros [Hu|[Hu|Hu]];
        [exists cur|exists (cur - 1)|exists (cur + 1)]; auto.
    + intros (c & [-> | [-> | ->]] & Hu); auto.
  - intros Hu. rewrite R. f_equal. apply (Hiff _ R). tauto.
  - intros Hne. rewrite R. f_equal.
    apply not_true_is_false. intros Hb. apply (Hiff _ R) in Hb.
    destruct Hb as [Hu|[Hu|Hu]]; revert Hu; apply Hne; lia.
Qed.

(** C2.  [verifyTotp] has no handler around the decoding of the server
    secret: an exception thrown by [customBase32Decode] leaves
    [verifyTotp] as it is, before any comparison. *)
Theorem verifyTotp_decode_error_escapes (now : Z)
    (input : TotpVerificationInput) (e : exn) :
  customBase32Decode (dbSecretKey input) = Throw e ->
  verifyTotp now input = mkM [] (Throw e).
Proof. apply verifyTotp_throws. Qed.

(** [verifySecretKey] returns a value, never an exception, and the value
    is [true] exactly when the bytes that [Buffer.from(_, "base64")] gives
    for the two inputs are the same: the handler of its [try] is never
    entered. *)
Lemma verifySecretKey_compares_decoded_bytes
    (userSecretKey dbKey : js_string) :
  result (verifySecretKey userSecretKey dbKey)
    = Return (bool_decide (Buffer_from_base64 userSecretKey
                           = Buffer_from_base64 dbKey))
  /\ (result (verifySecretKey userSecretKey dbKey) = Return true
      <-> Buffer_from_base64 userSecretKey = Buffer_from_base64 dbKey).
Proof.
  assert (R : result (verifySecretKey userSecretKey dbKey)
              = Return (bool_decide (Buffer_from_base64 userSecretKey
                                     = Buffer_from_base64 dbKey))).
  { rewrite verifySecretKey_unfold.
    destruct (len (Buffer_from_base64 userSecretKey) =? _) eqn:E;
      [reflexivity|].
    simpl. now rewrite bool_decide_length_differs. }
  split; [exact R|]. rewrite R. split.
  - intros [= Hb]. now apply bool_decide_eq_true in Hb.
  - intros Hb. now rewrite (bool_decide_eq_true_2 _ Hb).
Qed.

(** C6.  Every invocation of [timingSafeEqual], in [verifyTotp] and in
    [verifySecretKey], is given two buffers of one length, so that its
    error is never raised: [verifySecretKey] returns a value, and
    [verifyTotp] throws only what the decoding of the secret throws.
    When the submitted code and the generated code differ in length,
    [verifyTotp] returns [false] and has made no comparison. *)
Theorem timingSafeEqual_length_guarded (now : Z)
    (input : TotpVerificationInput) (userSecretKey dbKey : js_string) :
  Forall equal_length_call (trace (verifyTotp now input))
  /\ Forall equal_length_call (trace (verifySecretKey userSecretKey dbKey))
  /\ (exists b, result (verifySecretKey userSecretKey dbKey) = Return b)
  /\ (forall e, result (verifyTotp now input) = Throw e ->
                customBase32Decode (dbSecretKey input) = Throw e)
  /\ (forall key,
        customBase32Decode (dbSecretKey input) = Return key ->
        length (Buffer_from (userTotp input))
          <> length (Buffer_from
               (generateHotp key
                  (floor_div now (totp_period AUTH_APP_PARAMS)))) ->
        verifyTotp now input = mkM [] (Return false)).
Proof.
  split; [apply verifyTotp_guarded|].
  split; [|split; [|split]].
  - rewrite verifySecretKey_unfold.
    destruct (len (Buffer_from_base64 userSecretKey) =? _) eqn:E;
      [|constructor].
    constructor; [|constructor]. simpl. now apply len_eqb_true.
  - rewrite verifySecretKey_unfold.
    destruct (len (Buffer_from_base64 userSecretKey) =? _);
      eexists; reflexivity.
  - intros e He.
    destruct (customBase32Decode (dbSecretKey input)) as [key|e'] eqn:Hdec.
    + destruct (verifyTotp_returns now input key Hdec) as [b Hb].
      congruence.
    + rewrite (verifyTotp_throws now input e' Hdec) in He.
      simpl in He. congruence.
  - intros key Hdec Hlen. unfold verifyTotp.
    rewrite (generateTotp_decoded _ key) by exact Hdec. rewrite bind_ret_l.
    destruct (Z.eqb_spec (len (Buffer_from (userTotp input)))
      (len (Buffer_from (generateHotp key
         (floor_div now (totp_period AUTH_APP_PARAMS)))))) as [E|E];
      [|reflexivity].
    exfalso. apply Hlen. unfold len in E. lia.
Qed.

End Properties.

Section Bounds.
Context `{H : Host}.

(** C9.  When [verifyTotp] returns [true] the submitted string has
    exactly [totp_length] characters, all decimal digits; on a secret
    that decodes, a string of another length or with another character
    yields [false]. *)
Theorem verifyTotp_true_only_on_digit_strings (now : Z)
    (input : TotpVerificationInput) :
  valid_params AUTH_APP_PARAMS ->
  (result (verifyTotp now input) = Return true ->
   len (userTotp input) = totp_length AUTH_APP_PARAMS
   /\ Forall (fun c => is_digit c = true) (userTotp input))
  /\ (forall key : Buffer,
        customBase32Decode (dbSecretKey input) = Return key ->
        len (userTotp input) <> totp_length AUTH_APP_PARAMS
        \/ ~ Forall (fun c => is_digit c = true) (userTotp input) ->
        result (verifyTotp now input) = Return false).
Proof.
  intros [HL _].
  assert (Htrue : result (verifyTotp now input) = Return true ->
            len (userTotp input) = totp_length AUTH_APP_PARAMS
            /\ Forall (fun c => is_digit c = true) (userTotp input)).
  { intros Hr.
    destruct (customBase32Decode (dbSecretKey input)) as [key|e] eqn:Hdec.
    - rewrite (verifyTotp_result now input key Hdec HL) in Hr.
      injection Hr as Hb.
      apply orb_prop in Hb as [Hb|Hb];
        [apply orb_prop in Hb as [Hb|Hb]|];
        apply bool_decide_eq_true in Hb; rewrite Hb;
        now apply generateHotp_spec.
    - rewrite (verifyTotp_throws now input e Hdec) in Hr. discriminate. }
  split; [exact Htrue|].
  intros key Hdec Hbad.
  destruct (verifyTotp_returns now input key Hdec) as [[|] Hb];
    [|exact Hb].
  destruct (Htrue Hb) as [Hlen Hall]. destruct Hbad; contradiction.
Qed.

(** C10.  For a digest of at least 20 bytes the offset of the dynamic
    truncation is at most 15, the read of the last byte and the four
    reads at [offset .. offset + 3] are inside the digest, and the
    truncated value is a non-negative integer below [2^31]. *)
Theorem dynamic_truncation_in_bounds (hmacResult : Buffer) :
  20 <= len hmacResult ->
  0 <= truncation_offset hmacResult <= 15
  /\ is_Some (index hmacResult (len hmacResult - 1))
  /\ (forall k : Z, 0 <= k <= 3 ->
        is_Some (index hmacResult (truncation_offset hmacResult + k)))
  /\ 0 <= truncated_code hmacResult < 2 ^ 31.
Proof.
  intros Hlen.
  pose proof (truncation_offset_range hmacResult) as Ho.
  split; [exact Ho|]. split; [|split].
  - apply index_in_bounds. lia.
  - intros k Hk. apply index_in_bounds. lia.
  - apply truncated_code_range.
Qed.

End Bounds.

(** C8.  [generateHotp] is a function of the configuration, the secret
    and the counter: two calls that agree on them give the same code. *)
Theorem generateHotp_deterministic (H1 H2 : Host)
    (secret1 secret2 : Buffer) (counter1 counter2 : Z) :
  H1 = H2 -> secret1 = secret2 -> counter1 = counter2 ->
  generateHotp (H := H1) secret1 counter1
  = generateHotp (H := H2) secret2 counter2.
Proof. intros -> -> ->. reflexivity. Qed.

(** C4.  At the counter [2^31] the buffer that [generateHotp] feeds to
    the HMAC is not the 8-byte big-endian serialization: [counter & 0xff]
    and [counter >> 8] work on the 32-bit signed value, whose sign fills
    the four most significant bytes. *)
Theorem counter_buffer_sign_extends_at_2_31 :
  counter_buffer 2147483648 = [255; 255; 255; 255; 128; 0; 0; 0]
  /\ big_endian_8 2147483648 = [0; 0; 0; 0; 128; 0; 0; 0].
Proof. split; vm_compute; reflexivity. Qed.

(** The bits above the 32nd are dropped as well. *)
Example counter_buffer_at_2_32 :
  counter_buffer 4294967296 = [0; 0; 0; 0; 0; 0; 0; 0]
  /\ big_endian_8 4294967296 = [0; 0; 0; 1; 0; 0; 0; 0].
Proof. split; vm_compute; reflexivity. Qed.

(** ** The theorems at concrete inputs *)

(** C1 at the reference host: 89 s after the epoch the counter is 2, and
    the code of counter 1 is still accepted. *)
Lemma verifyTotp_accepts_drift_window_witness :
  valid_params reference_params
  /\ result (verifyTotp (H := reference_host) 89000
               {| userTotp := str "119246"; dbSecretKey := rfc6238_secret |})
     = Return true.
Proof.
  assert (Hv : valid_params reference_params)
    by (split; reflexivity).
  split; [exact Hv|].
  refine (proj1 (proj2 (verifyTotp_accepts_drift_window (H := reference_host)
            89000 {| userTotp := str "119246"; dbSecretKey := rfc6238_secret |}
            rfc6238_key Hv _)) _).
  - vm_compute. reflexivity.
  - left. vm_compute. reflexivity.
Defined.

(** C2 at the reference host: a secret with the character ['1']. *)
Lemma verifyTotp_decode_error_escapes_witness :
  verifyTotp (H := reference_host) 59000
    {| userTotp := str "119246"; dbSecretKey := malformed_secret |}
  = mkM [] (Throw (DecodeError "invalid base32 character")).
Proof.
  apply (verifyTotp_decode_error_escapes (H := reference_host)).
  vm_compute. reflexivity.
Defined.

(** C3.  Against the well-formed stored secret ["YWJj"] the malformed
    submission ["YW%Jj"] is accepted: [Buffer.from] skips the ['%'], both
    sides decode to the bytes of "abc", and the handler that was to turn
    a failed decoding into [false] is not entered. *)
Theorem verifySecretKey_accepts_malformed_submission :
  Base64.well_formed (str "YW%Jj") = false
  /\ Base64.well_formed (str "YWJj") = true
  /\ verifySecretKey (H := reference_host) (str "YW%Jj") (str "YWJj")
     = mkM [TimingSafeEqual (str "abc") (str "abc")] (Return true).
Proof. repeat split; vm_compute; reflexivity. Qed.

(** A code unit above 255 is read by its low byte: U+0159 as ['Y']. *)
Example base64_reads_low_byte :
  Base64.decode [345; 87; 74; 106] = str "abc".
Proof. vm_compute. reflexivity. Qed.

(** Two malformed strings that decode to the same bytes, here to none,
    are accepted against each other as well. *)
Example verifySecretKey_accepts_malformed_base64 :
  Base64.well_formed (str "%%%") = false
  /\ result (verifySecretKey (H := reference_host) (str "%%%") (str "%%%"))
     = Return true.
Proof. split; vm_compute; reflexivity. Qed.

(** C6 at the reference host: a submission of five characters. *)
Lemma timingSafeEqual_length_guarded_witness :
  verifyTotp (H := reference_host) 59000
    {| userTotp := str "12345"; dbSecretKey := rfc6238_secret |}
  = mkM [] (Return false).
Proof.
  refine (proj2 (proj2 (proj2 (proj2
    (timingSafeEqual_length_guarded (H := reference_host) 59000
       {| userTotp := str "12345"; dbSecretKey := rfc6238_secret |}
       [] [])))) rfc6238_key _ _).
  - vm_compute. reflexivity.
  - vm_compute. discriminate.
Defined.

(** C8 at the reference host. *)
Lemma generateHotp_deterministic_witness :
  generateHotp (H := reference_host) rfc6238_key 1
  = generateHotp (H := reference_host) rfc6238_key 1.
Proof.
  apply (generateHotp_deterministic reference_host reference_host
           rfc6238_key rfc6238_key 1 1); reflexivity.
Defined.

(** C9 at the reference host: the accepted submission of 59 s. *)
Lemma verifyTotp_true_only_on_digit_strings_witness :
  len (str "119246") = 6
  /\ Forall (fun c => is_digit c = true) (str "119246").
Proof.
  refine (proj1 (verifyTotp_true_only_on_digit_strings (H := reference_host)
            59000 {| userTotp := str "119246"; dbSecretKey := rfc6238_secret |}
            _) _).
  - split; reflexivity.
  - vm_compute. reflexivity.
Defined.

(** C10 on the digest of the reference host for counter 1. *)
Lemma dynamic_truncation_in_bounds_witness :
  0 <= truncated_code (SHA256.hmac rfc6238_key (counter_buffer 1)) < 2 ^ 31.
Proof.
  refine (proj2 (proj2 (proj2
    (dynamic_truncation_in_bounds
       (SHA256.hmac rfc6238_key (counter_buffer 1)) _)))).
  vm_compute. discriminate.
Defined.

(** * Further properties of the module *)

(** ** The counter message, for every counter *)

Lemma ToInt32_range (x : Z) : - 2 ^ 31 <= ToInt32 x < 2 ^ 31.
Proof.
  unfold ToInt32.
  pose proof (Z.mod_pos_bound x (2 ^ 32) ltac:(lia)).
  destruct (Z.ltb_spec (x mod 2 ^ 32) (2 ^ 31)); lia.
Qed.

Lemma ToInt32_int32 (x : Z) : - 2 ^ 31 <= x < 2 ^ 31 -> ToInt32 x = x.
Proof.
  intros Hx. destruct (Z.lt_ge_cases x 0) as [Hneg|Hpos].
  - unfold ToInt32.
    replace (x mod 2 ^ 32) with (x + 2 ^ 32).
    + destruct (Z.ltb_spec (x + 2 ^ 32) (2 ^ 31)); lia.
    + rewrite <- (Z.mod_add x 1 (2 ^ 32)) by lia.
      rewrite Z.mod_small; lia.
  - apply ToInt32_small. lia.
Qed.

Lemma ToInt32_add_mul (x k : Z) : ToInt32 (x + k * 2 ^ 32) = ToInt32 x.
Proof. unfold ToInt32. now rewrite Z.mod_add by lia. Qed.

Lemma ToInt32_congruent (x : Z) : exists k, ToInt32 x = x + k * 2 ^ 32.
Proof.
  unfold ToInt32. pose proof (Z.div_mod x (2 ^ 32) ltac:(lia)) as E.
  destruct (x mod 2 ^ 32 <? 2 ^ 31).
  - exists (- (x / 2 ^ 32)). lia.
  - exists (- (x / 2 ^ 32) - 1). lia.
Qed.

Lemma sar_8 (x : Z) : sar x 8 = ToInt32 x / 256.
Proof. unfold sar. change (8 mod 32) with 8. now rewrite Z.shiftr_div_pow2. Qed.

Lemma int32_div_256 (s : Z) :
  - 2 ^ 31 <= s < 2 ^ 31 -> - 2 ^ 31 <= s / 256 < 2 ^ 31.
Proof.
  intros Hs. pose proof (Z.div_mod s 256 ltac:(lia)).
  pose proof (Z.mod_pos_bound s 256 ltac:(lia)). lia.
Qed.

Lemma counter_buffer_int32 (counter : Z) :
  counter_buffer counter = big_endian_8 (ToInt32 counter).
Proof.
  unfold counter_buffer, big_endian_8.
  cbn [serialize_loop Z.ltb Z.compare Z.add Pos.add Pos.succ Pos.compare
       Pos.compare_cont].
  rewrite !sar_8, !band_0xff.
  pose proof (ToInt32_range counter) as R0.
  set (s := ToInt32 counter) in *.
  pose proof (int32_div_256 _ R0) as R1.
  rewrite (ToInt32_int32 _ R1).
  pose proof (int32_div_256 _ R1) as R2.
  rewrite (ToInt32_int32 _ R2).
  pose proof (int32_div_256 _ R2) as R3.
  rewrite (ToInt32_int32 _ R3).
  pose proof (int32_div_256 _ R3) as R4.
  rewrite (ToInt32_int32 _ R4).
  pose proof (int32_div_256 _ R4) as R5.
  rewrite (ToInt32_int32 _ R5).
  pose proof (int32_div_256 _ R5) as R6.
  rewrite (ToInt32_int32 _ R6).
  pose proof (int32_div_256 _ R6) as R7.
  rewrite ?(ToInt32_int32 _ R7).
  unfold store, ToUint8. simpl.
  rewrite !Z.mod_mod by lia.
  change (256 ^ (7 - 0))
    with (256 * (256 * (256 * (256 * (256 * (256 * 256)))))).
  change (256 ^ (7 - 1)) with (256 * (256 * (256 * (256 * (256 * 256))))).
  change (256 ^ (7 - 2)) with (256 * (256 * (256 * (256 * 256)))).
  change (256 ^ (7 - 3)) with (256 * (256 * (256 * 256))).
  change (256 ^ (7 - 4)) with (256 * (256 * 256)).
  change (256 ^ (7 - 5)) with (256 * 256).
  change (256 ^ (7 - 6)) with 256.
  change (256 ^ (7 - 7)) with 1.
  rewrite Z.div_1_r, <- !Z.div_div by lia. reflexivity.
Qed.

Lemma counter_buffer_ToInt32 (c1 c2 : Z) :
  ToInt32 c1 = ToInt32 c2 -> counter_buffer c1 = counter_buffer c2.
Proof. intros E. now rewrite !counter_buffer_int32, E. Qed.

(** The bytes of [big_endian_8] read back as a number give the argument
    modulo [2^64]. *)
Lemma big_endian_8_value (x : Z) :
  SHA256.be_word (big_endian_8 x) = x mod 2 ^ 64.
Proof.
  unfold big_endian_8, SHA256.be_word. cbn [map fold_left].
  change (256 ^ (7 - 0))
    with (256 * (256 * (256 * (256 * (256 * (256 * 256)))))).
  change (256 ^ (7 - 1)) with (256 * (256 * (256 * (256 * (256 * 256))))).
  change (256 ^ (7 - 2)) with (256 * (256 * (256 * (256 * 256)))).
  change (256 ^ (7 - 3)) with (256 * (256 * (256 * 256))).
  change (256 ^ (7 - 4)) with (256 * (256 * 256)).
  change (256 ^ (7 - 5)) with (256 * 256).
  change (256 ^ (7 - 6)) with 256.
  change (256 ^ (7 - 7)) with 1.
  rewrite Z.div_1_r, <- !Z.div_div by lia.
  set (q1 := x / 256). set (q2 := q1 / 256). set (q3 := q2 / 256).
  set (q4 := q3 / 256). set (q5 := q4 / 256). set (q6 := q5 / 256).
  set (q7 := q6 / 256).
  pose proof (Z.div_mod x 256 ltac:(lia)) as D0.
  pose proof (Z.div_mod q1 256 ltac:(lia)) as D1.
  pose proof (Z.div_mod q2 256 ltac:(lia)) as D2.
  pose proof (Z.div_mod q3 256 ltac:(lia)) as D3.
  pose proof (Z.div_mod q4 256 ltac:(lia)) as D4.
  pose proof (Z.div_mod q5 256 ltac:(lia)) as D5.
  pose proof (Z.div_mod q6 256 ltac:(lia)) as D6.
  pose proof (Z.div_mod q7 256 ltac:(lia)) as D7.
  pose proof (Z.mod_pos_bound x 256 ltac:(lia)) as B0.
  pose proof (Z.mod_pos_bound q1 256 ltac:(lia)) as B1.
  pose proof (Z.mod_pos_bound q2 256 ltac:(lia)) as B2.
  pose proof (Z.mod_pos_bound q3 256 ltac:(lia)) as B3.
  pose proof (Z.mod_pos_bound q4 256 ltac:(lia)) as B4.
  pose proof (Z.mod_pos_bound q5 256 ltac:(lia)) as B5.
  pose proof (Z.mod_pos_bound q6 256 ltac:(lia)) as B6.
  pose proof (Z.mod_pos_bound q7 256 ltac:(lia)) as B7.
  fold q1 in D0. fold q2 in D1. fold q3 in D2. fold q4 in D3.
  fold q5 in D4. fold q6 in D5. fold q7 in D6.
  apply (Z.mod_unique x (2 ^ 64) (q7 / 256)); lia.
Qed.

Lemma big_endian_8_add_mul (x k : Z) :
  big_endian_8 (x + k * 2 ^ 64) = big_endian_8 x.
Proof.
  unfold big_endian_8. cbn [map].
  assert (Hbyte : forall j : Z, 0 <= j <= 7 ->
            (x + k * 2 ^ 64) / 256 ^ j mod 256 = x / 256 ^ j mod 256).
  { intros j Hj.
    assert (Hp : 0 < 256 ^ j) by (apply Z.pow_pos_nonneg; lia).
    replace (k * 2 ^ 64) with (k * 256 ^ (7 - j) * 256 * 256 ^ j).
    - rewrite Z.div_add by lia. apply Z.mod_add. lia.
    - rewrite <- !Z.mul_assoc. f_equal.
      rewrite <- (Z.pow_1_r 256) at 2.
      rewrite <- !Z.pow_add_r by lia.
      replace (7 - j + (1 + j)) with 8 by lia. reflexivity. }
  rewrite !Hbyte by lia. reflexivity.
Qed.

(** X1.  For every counter the message fed to the HMAC is the 8-byte
    big-endian serialization of [ToInt32(counter)], sign-extended: it has
    eight bytes, and byte [i] is [floor(ToInt32(counter) / 256^(7-i)) mod
    256]. *)
Theorem counter_buffer_is_int32_big_endian (counter : Z) :
  counter_buffer counter = big_endian_8 (ToInt32 counter)
  /\ length (counter_buffer counter) = 8%nat
  /\ Forall is_byte (counter_buffer counter).
Proof.
  rewrite counter_buffer_int32. split; [reflexivity|].
  split; [reflexivity|].
  unfold big_endian_8.
  repeat constructor; apply Z.mod_pos_bound; lia.
Qed.

(** X2.  Among the unsigned 64-bit counters, the message is the 8-byte
    big-endian serialization of the counter exactly for the counters
    below [2^31] and for the [2^31] counters at the top of the range. *)
Theorem counter_buffer_big_endian_iff (counter : Z) :
  0 <= counter < 2 ^ 64 ->
  (counter_buffer counter = big_endian_8 counter
   <-> counter < 2 ^ 31 \/ 2 ^ 64 - 2 ^ 31 <= counter).
Proof.
  intros Hc. rewrite counter_buffer_int32.
  pose proof (ToInt32_range counter) as Hr.
  destruct (ToInt32_congruent counter) as [k Hk].
  split.
  - intros E. apply (f_equal SHA256.be_word) in E.
    rewrite !big_endian_8_value in E.
    rewrite (Z.mod_small counter) in E by lia.
    destruct (Z.lt_ge_cases (ToInt32 counter) 0) as [Hneg|Hpos].
    + right.
      assert (E' : ToInt32 counter + 2 ^ 64 = ToInt32 counter mod 2 ^ 64)
        by (apply (Z.mod_unique _ (2 ^ 64) (-1)); lia).
      lia.
    + left. rewrite Z.mod_small in E by lia. lia.
  - intros [Hlo|Hhi].
    + rewrite ToInt32_small by lia. reflexivity.
    + assert (E : ToInt32 counter = counter + (-1) * 2 ^ 64).
      { rewrite <- (ToInt32_add_mul counter (- 2 ^ 32)).
        rewrite ToInt32_int32; lia. }
      rewrite E. apply big_endian_8_add_mul.
Qed.

(** X2 at the counter of one period after the epoch. *)
Lemma counter_buffer_big_endian_iff_witness :
  counter_buffer 1 = big_endian_8 1.
Proof.
  apply (counter_buffer_big_endian_iff 1); lia.
Defined.

(** ** Dynamic truncation against RFC 4226 *)

Lemma index_nth (buf : Buffer) (i : Z) :
  0 <= i < len buf -> index buf i = Some (nth (Z.to_nat i) buf 0).
Proof.
  intros Hi. unfold index, len in *.
  destruct (Z.ltb_spec i 0); [lia|].
  destruct (nth_lookup_or_length buf (Z.to_nat i) 0) as [E|E];
    [exact E|lia].
Qed.

Lemma is_byte_nth (buf : Buffer) (i : nat) :
  Forall is_byte buf -> (i < length buf)%nat -> is_byte (nth i buf 0).
Proof.
  intros Hall Hi. rewrite Forall_forall in Hall. apply Hall.
  apply list_elem_of_In. now apply nth_In.
Qed.

Lemma truncation_offset_last_byte (hmacResult : Buffer) :
  1 <= len hmacResult -> Forall is_byte hmacResult ->
  truncation_offset hmacResult
  = nth (length hmacResult - 1) hmacResult 0 mod 16.
Proof.
  intros Hlen Hall. unfold truncation_offset.
  rewrite index_nth by lia. cbn [operand].
  replace (Z.to_nat (len hmacResult - 1)) with (length hmacResult - 1)%nat
    by (unfold len; lia).
  rewrite band_0xf, ToInt32_small; [reflexivity|].
  pose proof (is_byte_nth hmacResult (length hmacResult - 1) Hall) as Hb.
  unfold is_byte, len in *. lia.
Qed.

Lemma truncated_code_rfc4226_eq (hmacResult : Buffer) :
  20 <= len hmacResult -> Forall is_byte hmacResult ->
  truncated_code hmacResult = rfc4226_truncate hmacResult.
Proof.
  intros Hlen Hall.
  pose proof (truncation_offset_last_byte hmacResult ltac:(lia) Hall) as Hoff.
  pose proof (truncation_offset_range hmacResult) as Ho.
  unfold rfc4226_truncate. rewrite <- Hoff.
  set (o := truncation_offset hmacResult) in *.
  assert (Hn : forall k : nat, (k <= 3)%nat ->
            index hmacResult (o + Z.of_nat k)
              = Some (nth (Z.to_nat o + k) hmacResult 0)
            /\ is_byte (nth (Z.to_nat o + k) hmacResult 0)).
  { intros k Hk. split.
    - rewrite index_nth by lia. do 2 f_equal. lia.
    - apply is_byte_nth; [exact Hall|]. unfold len in Hlen. lia. }
  destruct (Hn 0%nat ltac:(lia)) as [I0 B0].
  destruct (Hn 1%nat ltac:(lia)) as [I1 B1].
  destruct (Hn 2%nat ltac:(lia)) as [I2 B2].
  destruct (Hn 3%nat ltac:(lia)) as [I3 B3].
  rewrite Nat.add_0_r in I0, B0. rewrite Z.add_0_r in I0.
  apply truncated_code_value; assumption.
Qed.

(** X4.  On a digest of at least 20 bytes the offset is the low four
    bits of the last byte and the truncated value is the number RFC 4226
    defines: the four bytes at the offset, big-endian, without the top
    bit. *)
Theorem truncated_code_is_rfc4226 (hmacResult : Buffer) :
  20 <= len hmacResult -> Forall is_byte hmacResult ->
  truncation_offset hmacResult
    = nth (length hmacResult - 1) hmacResult 0 mod 16
  /\ truncated_code hmacResult = rfc4226_truncate hmacResult.
Proof.
  intros Hlen Hall. split.
  - apply truncation_offset_last_byte; [lia|exact Hall].
  - now apply truncated_code_rfc4226_eq.
Qed.

(** X4 on the digest of the reference host for counter 1. *)
Lemma truncated_code_is_rfc4226_witness :
  truncated_code (SHA256.hmac rfc6238_key (counter_buffer 1))
  = rfc4226_truncate (SHA256.hmac rfc6238_key (counter_buffer 1)).
Proof.
  refine (proj2 (truncated_code_is_rfc4226
                   (SHA256.hmac rfc6238_key (counter_buffer 1)) _ _)).
  - vm_compute. discriminate.
  - vm_compute. repeat constructor; discriminate.
Defined.

Section Composition.
Context `{H : Host}.

(** X3.  The code depends on the counter only through its low 32 bits:
    counters that differ by a multiple of [2^32] get the same code. *)
Theorem generateHotp_repeats_every_2_32 (secretKeyBuffer : Buffer)
    (counter k : Z) :
  generateHotp secretKeyBuffer (counter + k * 2 ^ 32)
  = generateHotp secretKeyBuffer counter.
Proof.
  unfold generateHotp.
  rewrite (counter_buffer_ToInt32 (counter + k * 2 ^ 32) counter);
    [reflexivity|apply ToInt32_add_mul].
Qed.

(** X5.  For a counter below [2^31] and a digest of at least 20 bytes,
    the value of the code is the HOTP value of RFC 4226: the truncation
    of the HMAC of the big-endian counter, modulo [10^totp_length]. *)
Theorem generateHotp_is_rfc4226 (secretKeyBuffer : Buffer) (counter : Z) :
  0 < totp_length AUTH_APP_PARAMS ->
  0 <= counter < 2 ^ 31 ->
  20 <= len (hmac_digest (totp_hash_algorithm AUTH_APP_PARAMS)
               secretKeyBuffer (big_endian_8 counter)) ->
  Forall is_byte (hmac_digest (totp_hash_algorithm AUTH_APP_PARAMS)
                    secretKeyBuffer (big_endian_8 counter)) ->
  decimal_value (generateHotp secretKeyBuffer counter)
  = rfc4226_truncate
      (hmac_digest (totp_hash_algorithm AUTH_APP_PARAMS) secretKeyBuffer
         (big_endian_8 counter))
    mod 10 ^ totp_length AUTH_APP_PARAMS.
Proof.
  intros HL Hc Hlen Hall. unfold generateHotp.
  rewrite (counter_buffer_below_2_31 counter Hc).
  set (digest := hmac_digest _ _ _) in *.
  destruct (format_code_spec (truncated_code digest) HL)
    as (_ & _ & Hval); [apply truncated_code_range|].
  rewrite Hval.
  now rewrite (truncated_code_rfc4226_eq digest Hlen Hall).
Qed.

(** C5.  For a positive code length and every secret and counter, the
    output of [generateHotp] has exactly [totp_length] characters, all
    decimal digits, and is the decimal rendering of the code's value with
    zeros in front.  The value is the truncated value the code computes,
    modulo [10^totp_length]; on a digest of at least 20 bytes that is the
    dynamic truncation of RFC 4226 of the HMAC of the counter message,
    the big-endian bytes of [ToInt32(counter)]. *)
Theorem generateHotp_code_format (secretKeyBuffer : Buffer) (counter : Z) :
  0 < totp_length AUTH_APP_PARAMS ->
  len (generateHotp secretKeyBuffer counter) = totp_length AUTH_APP_PARAMS
  /\ Forall (fun c => is_digit c = true) (generateHotp secretKeyBuffer counter)
  /\ decimal_value (generateHotp secretKeyBuffer counter)
     = truncated_code
         (hmac_digest (totp_hash_algorithm AUTH_APP_PARAMS) secretKeyBuffer
            (counter_buffer counter))
       mod 10 ^ totp_length AUTH_APP_PARAMS
  /\ (exists zeros : nat,
        generateHotp secretKeyBuffer counter
        = repeat 48 zeros
          ++ Number_toString
               (truncated_code
                  (hmac_digest (totp_hash_algorithm AUTH_APP_PARAMS)
                     secretKeyBuffer (counter_buffer counter))
                mod 10 ^ totp_length AUTH_APP_PARAMS))
  /\ (20 <= len (hmac_digest (totp_hash_algorithm AUTH_APP_PARAMS)
                   secretKeyBuffer (big_endian_8 (ToInt32 counter))) ->
      Forall is_byte (hmac_digest (totp_hash_algorithm AUTH_APP_PARAMS)
                        secretKeyBuffer (big_endian_8 (ToInt32 counter))) ->
      decimal_value (generateHotp secretKeyBuffer counter)
      = rfc4226_truncate
          (hmac_digest (totp_hash_algorithm AUTH_APP_PARAMS) secretKeyBuffer
             (big_endian_8 (ToInt32 counter)))
        mod 10 ^ totp_length AUTH_APP_PARAMS).
Proof.
  intros HL.
  assert (Hp : 0 < 10 ^ totp_length AUTH_APP_PARAMS)
    by (apply Z.pow_pos_nonneg; lia).
  unfold generateHotp.
  set (code := truncated_code _).
  pose proof (truncated_code_range
    (hmac_digest (totp_hash_algorithm AUTH_APP_PARAMS) secretKeyBuffer
       (counter_buffer counter))) as Hc. fold code in Hc.
  destruct (format_code_spec code HL ltac:(lia)) as (Hlen & Hall & Hval).
  split; [exact Hlen|]. split; [exact Hall|]. split; [exact Hval|]. split.
  - unfold format_code, rem, pow. rewrite padStart_zero.
    rewrite Z.rem_mod_nonneg by lia. eexists. reflexivity.
  - intros Hdl Hdb. rewrite Hval. unfold code.
    rewrite counter_buffer_int32.
    now rewrite (truncated_code_rfc4226_eq _ Hdl Hdb).
Qed.

End Composition.

(** X5 at the reference host, counter 1. *)
Lemma generateHotp_is_rfc4226_witness :
  decimal_value (generateHotp (H := reference_host) rfc6238_key 1)
  = rfc4226_truncate
      (hmac_digest (Host := reference_host)
         (totp_hash_algorithm (AUTH_APP_PARAMS (Host := reference_host)))
         rfc6238_key (big_endian_8 1))
    mod 10 ^ totp_length (AUTH_APP_PARAMS (Host := reference_host)).
Proof.
  refine (generateHotp_is_rfc4226 (H := reference_host) rfc6238_key 1
            _ _ _ _).
  - reflexivity.
  - lia.
  - vm_compute. discriminate.
  - vm_compute. repeat constructor; discriminate.
Defined.

(** C5 at the reference host, counter 1. *)
Lemma generateHotp_code_format_witness :
  decimal_value (generateHotp (H := reference_host) rfc6238_key 1)
  = rfc4226_truncate
      (hmac_digest (Host := reference_host)
         (totp_hash_algorithm (AUTH_APP_PARAMS (Host := reference_host)))
         rfc6238_key (big_endian_8 (ToInt32 1)))
    mod 10 ^ totp_length (AUTH_APP_PARAMS (Host := reference_host)).
Proof.
  refine (proj2 (proj2 (proj2 (proj2
    (generateHotp_code_format (H := reference_host) rfc6238_key 1 _))))
    _ _).
  - reflexivity.
  - vm_compute. discriminate.
  - vm_compute. repeat constructor; discriminate.
Defined.

(** ** The comparisons of [verifyTotp] *)

Lemma take_repeat {A} (x : A) (n m : nat) :
  (n <= m)%nat -> take n (repeat x m) = repeat x n.
Proof.
  intros Hnm. replace m with (n + (m - n))%nat by lia.
  rewrite repeat_app, take_app_length'; [reflexivity|].
  now rewrite repeat_length.
Qed.

Section Comparisons.
Context `{H : Host}.

Lemma same_length_and_equal_same (a b : Buffer) :
  (len a =? len b) = true ->
  same_length_and_equal a b = timingSafeEqual a b.
Proof. intros E. unfold same_length_and_equal. now rewrite E. Qed.

(** X6.  On a secret that decodes, [verifyTotp] compares the submitted
    bytes with the current code first, then with the previous one, then
    with the next one, and stops at the first match: one comparison when
    the current code matches, two when the previous one does, three
    otherwise, and none when the byte length is not [totp_length]. *)
Theorem verifyTotp_comparison_order (now : Z)
    (input : TotpVerificationInput) (key : Buffer) :
  valid_params AUTH_APP_PARAMS ->
  customBase32Decode (dbSecretKey input) = Return key ->
  trace (verifyTotp now input) =
  if len (Buffer_from (userTotp input)) =? totp_length AUTH_APP_PARAMS
  then
    TimingSafeEqual (Buffer_from (userTotp input))
      (generateHotp key (floor_div now (totp_period AUTH_APP_PARAMS)))
    :: (if bool_decide (userTotp input
          = generateHotp key (floor_div now (totp_period AUTH_APP_PARAMS)))
        then []
        else
          TimingSafeEqual (Buffer_from (userTotp input))
            (generateHotp key
               (floor_div now (totp_period AUTH_APP_PARAMS) - 1))
          :: (if bool_decide (userTotp input
                = generateHotp key
                    (floor_div now (totp_period AUTH_APP_PARAMS) - 1))
              then []
              else
                [TimingSafeEqual (Buffer_from (userTotp input))
                   (generateHotp key
                      (floor_div now (totp_period AUTH_APP_PARAMS) + 1))]))
  else [].
Proof.
  intros [HL _] Hdec. unfold verifyTotp.
  set (cur := floor_div now (totp_period AUTH_APP_PARAMS)).
  rewrite (generateTotp_decoded _ key) by exact Hdec.
  rewrite bind_ret_l.
  change (Z.to_nat 1) with 1%nat. cbn [drift_loop].
  change (1 <=? 1) with true. cbv iota.
  rewrite !(generateTotp_decoded _ key) by exact Hdec.
  rewrite !bind_ret_l.
  destruct (generateHotp_spec key cur HL) as [Lc Dc].
  destruct (generateHotp_spec key (cur - 1) HL) as [Lp Dp].
  destruct (generateHotp_spec key (cur + 1) HL) as [Ln Dn].
  generalize dependent (generateHotp key (cur + 1)). intros cn Ln Dn.
  generalize dependent (generateHotp key (cur - 1)). intros cp Lp Dp.
  generalize dependent (generateHotp key cur). intros cc Lc Dc.
  rewrite <- (bool_decide_utf8_digits (userTotp input) cc Dc),
          <- (bool_decide_utf8_digits (userTotp input) cp Dp).
  rewrite (Buffer_from_digits _ Dc), (Buffer_from_digits _ Dp),
          (Buffer_from_digits _ Dn).
  set (u := Buffer_from (userTotp input)).
  rewrite Lc.
  destruct (len u =? totp_length AUTH_APP_PARAMS) eqn:E; cbn [negb];
    [|reflexivity].
  assert (Ec : (len u =? len cc) = true) by now rewrite Lc.
  assert (Ep : (len u =? len cp) = true) by now rewrite Lp.
  assert (En : (len u =? len cn) = true) by now rewrite Ln.
  rewrite !same_length_and_equal_same by assumption.
  rewrite trace_bind, timingSafeEqual_result by exact Ec.
  cbn [trace timingSafeEqual app]. f_equal.
  destruct (bool_decide (u = cc)); [reflexivity|].
  rewrite trace_bind, timingSafeEqual_result by exact Ep.
  cbn [trace timingSafeEqual app]. f_equal.
  destruct (bool_decide (u = cp)); [reflexivity|].
  rewrite trace_bind, timingSafeEqual_result by exact En.
  cbn [trace timingSafeEqual app]. f_equal.
  destruct (bool_decide (u = cn)); reflexivity.
Qed.

(** X7.  A submission whose UTF-8 length is not [totp_length] -- the
    empty string among them -- is rejected on a secret that decodes,
    and no comparison is made. *)
Theorem verifyTotp_rejects_wrong_length (now : Z)
    (input : TotpVerificationInput) (key : Buffer) :
  valid_params AUTH_APP_PARAMS ->
  customBase32Decode (dbSecretKey input) = Return key ->
  (len (Buffer_from (userTotp input)) <> totp_length AUTH_APP_PARAMS ->
   verifyTotp now input = mkM [] (Return false))
  /\ (userTotp input = [] -> verifyTotp now input = mkM [] (Return false)).
Proof.
  intros [HL _] Hdec.
  assert (Hgen : len (Buffer_from (userTotp input))
                   <> totp_length AUTH_APP_PARAMS ->
                 verifyTotp now input = mkM [] (Return false)).
  { intros Hlen. unfold verifyTotp.
    rewrite (generateTotp_decoded _ key) by exact Hdec. rewrite bind_ret_l.
    destruct (generateHotp_spec key
      (floor_div now (totp_period AUTH_APP_PARAMS)) HL) as [Lc Dc].
    rewrite (Buffer_from_digits _ Dc), Lc.
    destruct (Z.eqb_spec (len (Buffer_from (userTotp input)))
                (totp_length AUTH_APP_PARAMS)); [contradiction|reflexivity]. }
  split; [exact Hgen|].
  intros Hempty. apply Hgen. rewrite Hempty.
  change (len (Buffer_from [])) with 0. lia.
Qed.

(** X8.  A code stays valid for any verification time within one period
    of the time it was generated for. *)
Theorem verifyTotp_accepts_within_one_period (t t' : Z)
    (input : TotpVerificationInput) (key : Buffer) :
  valid_params AUTH_APP_PARAMS ->
  customBase32Decode (dbSecretKey input) = Return key ->
  userTotp input
    = generateHotp key (floor_div t (totp_period AUTH_APP_PARAMS)) ->
  t - totp_period AUTH_APP_PARAMS <= t' <= t + totp_period AUTH_APP_PARAMS ->
  result (verifyTotp t' input) = Return true.
Proof.
  intros [HL HP] Hdec Hu Ht.
  rewrite (verifyTotp_result t' input key Hdec HL).
  unfold floor_div in *.
  set (p := totp_period AUTH_APP_PARAMS) in *.
  assert (Hlo : t / p - 1 <= t' / p).
  { replace (t / p - 1) with ((t + (-1) * p) / p)
      by (rewrite Z.div_add; lia).
    apply Z.div_le_mono; lia. }
  assert (Hhi : t' / p <= t / p + 1).
  { replace (t / p + 1) with ((t + 1 * p) / p)
      by (rewrite Z.div_add; lia).
    apply Z.div_le_mono; lia. }
  set (cur := t' / p) in *.
  assert (Hcases : t / p = cur \/ t / p = cur - 1 \/ t / p = cur + 1)
    by lia.
  set (code := generateHotp key) in *.
  clearbody code cur. f_equal.
  rewrite !orb_true_iff, !bool_decide_eq_true.
  destruct Hcases as [E|[E|E]]; rewrite E in Hu; tauto.
Qed.

(** X9.  The strings [verifySecretKey] accepts against each other form
    an equivalence: every string is accepted against itself, the two
    arguments can be exchanged, and acceptance is transitive. *)
Theorem verifySecretKey_equivalence (a b c : js_string) :
  result (verifySecretKey a a) = Return true
  /\ result (verifySecretKey a b) = result (verifySecretKey b a)
  /\ (result (verifySecretKey a b) = Return true ->
      result (verifySecretKey b c) = Return true ->
      result (verifySecretKey a c) = Return true).
Proof.
  assert (R : forall x y,
            result (verifySecretKey x y)
            = Return (bool_decide (Buffer_from_base64 x
                                   = Buffer_from_base64 y))).
  { intros x y. rewrite verifySecretKey_unfold.
    destruct (len (Buffer_from_base64 x) =? _) eqn:E; [reflexivity|].
    simpl. now rewrite bool_decide_length_differs. }
  rewrite !R. split; [|split].
  - now rewrite bool_decide_eq_true_2.
  - f_equal. apply bool_decide_ext. split; intros ->; reflexivity.
  - intros [= Hab] [= Hbc].
    apply bool_decide_eq_true in Hab. apply bool_decide_eq_true in Hbc.
    rewrite bool_decide_eq_true_2; [reflexivity|congruence].
Qed.

(** X10.  The code never carries more than the 31 bits of the truncated
    value: from ten digits on, its value is the truncated value itself
    and the digits before the last ten are zeros. *)
Theorem generateHotp_long_codes (secretKeyBuffer : Buffer) (counter : Z) :
  10 <= totp_length AUTH_APP_PARAMS ->
  decimal_value (generateHotp secretKeyBuffer counter)
  = truncated_code
      (hmac_digest (totp_hash_algorithm AUTH_APP_PARAMS) secretKeyBuffer
         (counter_buffer counter))
  /\ take (Z.to_nat (totp_length AUTH_APP_PARAMS - 10))
          (generateHotp secretKeyBuffer counter)
     = repeat 48 (Z.to_nat (totp_length AUTH_APP_PARAMS - 10)).
Proof.
  intros HL. unfold generateHotp.
  set (code := truncated_code _).
  pose proof (truncated_code_range
    (hmac_digest (totp_hash_algorithm AUTH_APP_PARAMS) secretKeyBuffer
       (counter_buffer counter))) as Hc. fold code in Hc.
  assert (HL0 : 0 < totp_length AUTH_APP_PARAMS) by lia.
  assert (Hc0 : 0 <= code) by lia.
  destruct (format_code_spec code HL0 Hc0) as (_ & _ & Hval).
  clearbody code.
  set (L := totp_length AUTH_APP_PARAMS) in *.
  assert (Hpow : 2 ^ 31 < 10 ^ L).
  { apply Z.lt_le_trans with (10 ^ 10); [reflexivity|].
    apply Z.pow_le_mono_r; lia. }
  rewrite Z.mod_small in Hval by lia.
  split; [exact Hval|].
  unfold format_code, rem, pow. fold L. rewrite padStart_zero.
  rewrite Z.rem_mod_nonneg, Z.mod_small by lia.
  destruct (Number_toString_spec code Hc0) as (_ & _ & Hlen).
  assert (H10 : (0 < length (Number_toString code) <= 10)%nat).
  { apply Hlen; [lia|]. change (10 ^ Z.of_nat 10) with 10000000000. lia. }
  rewrite take_app_le by (rewrite repeat_length; unfold len; lia).
  apply take_repeat. unfold len. lia.
Qed.

(** X11.  With a code length of zero every code is the one-character
    string ["0"], and [verifyTotp] accepts it for every secret that
    decodes, at every time. *)
Theorem generateHotp_zero_length (now : Z) (input : TotpVerificationInput)
    (key secretKeyBuffer : Buffer) (counter : Z) :
  totp_length AUTH_APP_PARAMS = 0 ->
  generateHotp secretKeyBuffer counter = str "0"
  /\ (customBase32Decode (dbSecretKey input) = Return key ->
      userTotp input = str "0" ->
      result (verifyTotp now input) = Return true).
Proof.
  intros HL.
  assert (Hgen : forall k c, generateHotp k c = str "0").
  { intros k c. unfold generateHotp, format_code, rem, pow.
    rewrite HL. change (10 ^ 0) with 1. rewrite Z.rem_1_r. reflexivity. }
  split; [apply Hgen|].
  intros Hdec Hu. unfold verifyTotp.
  rewrite (generateTotp_decoded _ key) by exact Hdec. rewrite bind_ret_l.
  rewrite Hgen, Hu. reflexivity.
Qed.

End Comparisons.

(** ** The further properties at concrete inputs *)

(** X6 at the reference host: the current code is matched by the first
    comparison. *)
Lemma verifyTotp_comparison_order_witness :
  trace (verifyTotp (H := reference_host) 59000
           {| userTotp := str "119246"; dbSecretKey := rfc6238_secret |})
  = [TimingSafeEqual (str "119246") (str "119246")].
Proof.
  rewrite (verifyTotp_comparison_order (H := reference_host) 59000
             {| userTotp := str "119246"; dbSecretKey := rfc6238_secret |}
             rfc6238_key).
  - vm_compute. reflexivity.
  - split; reflexivity.
  - vm_compute. reflexivity.
Defined.

(** X7 at the reference host: the empty submission. *)
Lemma verifyTotp_rejects_wrong_length_witness :
  verifyTotp (H := reference_host) 59000
    {| userTotp := []; dbSecretKey := rfc6238_secret |}
  = mkM [] (Return false).
Proof.
  refine (proj2 (verifyTotp_rejects_wrong_length (H := reference_host) 59000
                   {| userTotp := []; dbSecretKey := rfc6238_secret |}
                   rfc6238_key _ _) _).
  - split; reflexivity.
  - vm_compute. reflexivity.
  - reflexivity.
Defined.

(** X8 at the reference host: the code of 59 s, verified 30 s later. *)
Lemma verifyTotp_accepts_within_one_period_witness :
  result (verifyTotp (H := reference_host) 89000
            {| userTotp := str "119246"; dbSecretKey := rfc6238_secret |})
  = Return true.
Proof.
  refine (verifyTotp_accepts_within_one_period (H := reference_host)
            59000 89000
            {| userTotp := str "119246"; dbSecretKey := rfc6238_secret |}
            rfc6238_key _ _ _ _).
  - split; reflexivity.
  - vm_compute. reflexivity.
  - vm_compute. reflexivity.
  - vm_compute. split; discriminate.
Defined.

(** X9 at the reference host: three spellings of the bytes of "abc". *)
Lemma verifySecretKey_equivalence_witness :
  result (verifySecretKey (H := reference_host) (str "YWJj") (str "YWJj="))
  = Return true.
Proof.
  refine (proj2 (proj2 (verifySecretKey_equivalence (H := reference_host)
            (str "YWJj") (str "YW%Jj") (str "YWJj="))) _ _);
    vm_compute; reflexivity.
Defined.

(** X10 at a code length of twelve. *)
Lemma generateHotp_long_codes_witness :
  take 2 (generateHotp (H := host_with_length 12) rfc6238_key 1)
  = repeat 48 2.
Proof.
  refine (proj2 (generateHotp_long_codes (H := host_with_length 12)
                   rfc6238_key 1 _)).
  vm_compute. discriminate.
Defined.

(** X11 at a code length of zero. *)
Lemma generateHotp_zero_length_witness :
  generateHotp (H := host_with_length 0) rfc6238_key 1 = str "0".
Proof.
  refine (proj1 (generateHotp_zero_length (H := host_with_length 0) 59000
                   {| userTotp := str "0"; dbSecretKey := rfc6238_secret |}
                   rfc6238_key rfc6238_key 1 _)).
  reflexivity.
Defined.
